(** * cellpack: layout of custom table cells

    A shallow embedding of [mvc/widgets/cellpack.py]: the margin helper,
    the packer contract with its memoised size, the linear [Box] packer
    with its extra-space generator, the [Table] grid, the [Stack] overlay
    and the absolute-position [Layout] with its mutable [LayoutRect]s.

    Python integers are unbounded, so coordinates and sizes are [Z];
    [divmod] and [//] round towards minus infinity, as [Z.div] and
    [Z.modulo] do.  Exceptions are values of [exn] carried by [result];
    a method that both mutates its object and may raise returns the
    object next to the [result], since a raise does not undo a mutation. *)

From stdpp Require Import base option list gmap strings.
From Stdlib Require Import ZArith Lia.

Open Scope Z_scope.

#[local] Set Warnings "-register-all".

(** ** Exceptions and results *)

Inductive exn : Set :=
| AttributeError
| NotImplementedError
| TypeError
| ValueError
| IndexError
| KeyError
| AssertionError
| ZeroDivisionError.

Inductive result (A : Type) : Type :=
| Ok (a : A)
| Raise (e : exn).

Arguments Ok {A} a.
Arguments Raise {A} e.

#[global] Instance result_ret : MRet result := fun A a => Ok a.

#[global] Instance result_bind : MBind result := fun A B f m =>
  match m with
  | Ok a => f a
  | Raise e => Raise e
  end.

Definition raised {A} (r : result A) : option exn :=
  match r with
  | Ok _ => None
  | Raise e => Some e
  end.

(** ** Margin *)

Module Margin.

Record t : Set := Make {
  margin_left : Z;
  margin_top : Z;
  margin_width : Z;
  margin_height : Z
}.

(** [margin] is the 4-tuple (top, right, bottom, left), or [None]. *)
Definition __init__ (margin : option (Z * Z * Z * Z)) : t :=
  let '(m0, m1, m2, m3) := default (0, 0, 0, 0) margin in
  {| margin_left := m3;
     margin_top := m0;
     margin_width := m1 + m3;
     margin_height := m0 + m2 |}.

Definition inner_rect (self : t) (x y width height : Z) : Z * Z * Z * Z :=
  (x + margin_left self,
   y + margin_top self,
   width - margin_width self,
   height - margin_height self).

Definition outer_size (self : t) (inner_size : Z * Z) : Z * Z :=
  (inner_size.1 + margin_width self,
   inner_size.2 + margin_height self).

Definition point_in_margin (self : t) (x y width height : Z) : bool :=
  (0 <=? x - margin_left self) && (x - margin_left self <? width - margin_width self)
  && (0 <=? y - margin_top self) && (y - margin_top self <? height - margin_height self).

End Margin.

(** ** Objects seen through their methods

    Children are duck typed: a packer only ever asks a child whether it has
    an attribute and calls it.  An object is therefore the table of the
    methods the packers use; a missing entry is a missing attribute, and
    calling it raises [AttributeError]. *)

(** What [find_hotspot] reports: (name, x, y, width, height). *)
Definition hotspot_info : Type := string * Z * Z * Z * Z.

Inductive obj : Type := Obj {
  (** [bool(o)], used by [if packing.child:] *)
  obj_truth : bool;
  (** [hasattr(o, 'draw')] *)
  obj_has_draw : bool;
  (** what [o.get_size()] returns, when the attribute exists *)
  obj_get_size : option (Z * Z);
  (** [o.find_hotspot(x, y, width, height)] *)
  obj_find_hotspot : option (Z -> Z -> Z -> Z -> result (option hotspot_info));
  (** [o._find_child_at(x, y, width, height)] *)
  obj_find_child_at :
    option (Z -> Z -> Z -> Z -> result (option (obj * Z * Z * Z * Z)))
}.

(** What [_find_child_at] reports: (child, x, y, width, height). *)
Definition child_pos : Type := obj * Z * Z * Z * Z.

Definition call_get_size (o : obj) : result (Z * Z) :=
  match obj_get_size o with
  | Some s => Ok s
  | None => Raise AttributeError
  end.

Definition call_find_child_at (o : obj) (x y width height : Z)
  : result (option child_pos) :=
  match obj_find_child_at o with
  | Some f => f x y width height
  | None => Raise AttributeError
  end.

(** A widget such as a TextBox or an ImageSurface: it can be drawn and
    sized, and has no hit-testing of its own. *)
Definition leaf (width height : Z) : obj :=
  {| obj_truth := true;
     obj_has_draw := true;
     obj_get_size := Some (width, height);
     obj_find_hotspot := None;
     obj_find_child_at := None |}.

(** A value that is no widget at all, such as a number. *)
Definition not_a_widget : obj :=
  {| obj_truth := true;
     obj_has_draw := false;
     obj_get_size := None;
     obj_find_hotspot := None;
     obj_find_child_at := None |}.

(** ** Packing and WhitespacePacking *)

Inductive packing : Type :=
| Packing (child : obj) (expand : bool)
| WhitespacePacking (size : Z) (expand : bool).

Definition packing_expand (p : packing) : bool :=
  match p with
  | Packing _ e => e
  | WhitespacePacking _ e => e
  end.

Definition packing_calc_size (translate_func : Z -> Z -> Z * Z) (p : packing)
  : result (Z * Z) :=
  match p with
  | Packing child _ =>
      '(w, h) ← call_get_size child;
      mret (translate_func w h)
  | WhitespacePacking size _ => mret (size, 0)
  end.

(** ** Drawing

    Drawing is an effect on a context the packers never look at: what a
    layout pass does is the sequence of [draw] calls it makes, in order,
    each with the rect it passes. *)
Definition draw_call : Type := obj * Z * Z * Z * Z.

(** [child.draw(context, x, y, width, height)] *)
Definition call_draw (child : obj) (x y width height : Z)
  : result (list draw_call) :=
  if obj_has_draw child then Ok [(child, x, y, width, height)]
  else Raise AttributeError.

(** [Packing.draw] passes the call on to the child, [WhitespacePacking.draw]
    does nothing. *)
Definition packing_draw (p : packing) (x y width height : Z)
  : result (list draw_call) :=
  match p with
  | Packing child _ => call_draw child x y width height
  | WhitespacePacking _ _ => Ok []
  end.

(** ** The Packer contract

    [_calc_size] is the abstract sizing routine; [_size] is the attribute
    in which [get_size] keeps its answer, absent until the first call. *)

Class Packer (P : Type) := {
  _calc_size : P -> result (Z * Z);
  _size : P -> option (Z * Z);
  set__size : Z * Z -> P -> P
}.

Definition get_size {P} `{Packer P} (self : P) : result (Z * Z) * P :=
  match _size self with
  | Some s => (Ok s, self)
  | None =>
      match _calc_size self with
      | Ok s => (Ok s, set__size s self)
      | Raise e => (Raise e, self)
      end
  end.

Definition get_current_size {P} `{Packer P} (self : P) : result (Z * Z) :=
  _calc_size self.

(** [Packer.find_hotspot], over the [_find_child_at] of the receiver.  The
    [try] covers only the call on the child: an [AttributeError] from it,
    whether the attribute is missing or the call raised it further down, is
    swallowed; one raised by [_find_child_at] itself propagates. *)
Definition Packer_find_hotspot
    (_find_child_at : Z -> Z -> Z -> Z -> result (option child_pos))
    (x y width height : Z) : result (option hotspot_info) :=
  cp ← _find_child_at x y width height;
  match cp with
  | Some (child, child_x, child_y, child_width, child_height) =>
      match obj_find_hotspot child with
      | None => Ok None
      | Some f =>
          match f (x - child_x) (y - child_y) child_width child_height with
          | Raise AttributeError => Ok None
          | r => r
          end
      end
  | None => Ok None
  end.

(** ** Box, HBox and VBox *)

Module Box.

Inductive orientation : Set := HBox | VBox.

Record t : Type := Make {
  kind : orientation;
  spacing : Z;
  children : list packing;
  children_end : list packing;
  expand_count : Z;
  size_memo : option (Z * Z)
}.

(** [HBox._translate] and [VBox._translate] *)
Definition _translate (o : orientation) (x y : Z) : Z * Z :=
  match o with
  | HBox => (x, y)
  | VBox => (y, x)
  end.

Definition __init__ (o : orientation) (spacing : Z) : t :=
  {| kind := o;
     spacing := spacing;
     children := [];
     children_end := [];
     expand_count := 0;
     size_memo := None |}.

Definition count_expand (self : t) (expand : bool) : Z :=
  if expand then expand_count self + 1 else expand_count self.

Definition can_be_drawn (child : obj) : bool :=
  obj_has_draw child && bool_decide (is_Some (obj_get_size child)).

Definition pack (self : t) (child : obj) (expand : bool) : result t :=
  if negb (can_be_drawn child) then Raise TypeError
  else Ok {| kind := kind self;
             spacing := spacing self;
             children := children self ++ [Packing child expand];
             children_end := children_end self;
             expand_count := count_expand self expand;
             size_memo := size_memo self |}.

Definition pack_end (self : t) (child : obj) (expand : bool) : result t :=
  if negb (can_be_drawn child) then Raise TypeError
  else Ok {| kind := kind self;
             spacing := spacing self;
             children := children self;
             children_end := children_end self ++ [Packing child expand];
             expand_count := count_expand self expand;
             size_memo := size_memo self |}.

Definition pack_space (self : t) (size : Z) (expand : bool) : t :=
  {| kind := kind self;
     spacing := spacing self;
     children := children self ++ [WhitespacePacking size expand];
     children_end := children_end self;
     expand_count := count_expand self expand;
     size_memo := size_memo self |}.

Definition pack_space_end (self : t) (size : Z) (expand : bool) : t :=
  {| kind := kind self;
     spacing := spacing self;
     children := children self;
     children_end := children_end self ++ [WhitespacePacking size expand];
     expand_count := count_expand self expand;
     size_memo := size_memo self |}.

(** The loop of [_calc_size]: running length and breadth. *)
Fixpoint calc_size_loop (o : orientation) (ps : list packing)
    (length breadth : Z) : result (Z * Z) :=
  match ps with
  | [] => Ok (length, breadth)
  | p :: ps' =>
      '(child_length, child_breadth) ← packing_calc_size (_translate o) p;
      calc_size_loop o ps' (length + child_length) (Z.max breadth child_breadth)
  end.

Definition calc_size (self : t) : result (Z * Z) :=
  '(length, breadth) ←
    calc_size_loop (kind self) (children self ++ children_end self) 0 0;
  let total_children :=
    Z.of_nat (List.length (children self)) +
    Z.of_nat (List.length (children_end self)) in
  let length := length + spacing self * (total_children - 1) in
  mret (_translate (kind self) length breadth).

#[global] Instance packer : Packer t := {|
  _calc_size := calc_size;
  _size := size_memo;
  set__size := fun s self =>
    {| kind := kind self;
       spacing := spacing self;
       children := children self;
       children_end := children_end self;
       expand_count := expand_count self;
       size_memo := Some s |}
|}.

(** *** The extra-space generator

    [_extra_space_iter] is a generator: nothing of its body runs before the
    first [next()].  Its state is the place where it is suspended. *)
Inductive extra_space_iter : Set :=
| NotStarted (total_extra_space : Z)
| YieldingZero
| Leftover (average_extra_space leftover : Z)
| YieldingAverage (average_extra_space : Z).

(** From the test of [while leftover > 1] up to the next [yield]. *)
Definition resume_leftover (average_extra_space leftover : Z)
  : Z * extra_space_iter :=
  if 1 <? leftover
  then (average_extra_space + 1, Leftover average_extra_space (leftover - 1))
  else (average_extra_space + leftover, YieldingAverage average_extra_space).

(** [extra_space_iter.next()], in a box whose [expand_count] is given. *)
Definition next (expand_count : Z) (it : extra_space_iter)
  : result (Z * extra_space_iter) :=
  match it with
  | NotStarted total_extra_space =>
      if total_extra_space <=? 0 then Ok (0, YieldingZero)
      else if expand_count =? 0 then Raise ZeroDivisionError
      else Ok (resume_leftover (total_extra_space `div` expand_count)
                               (total_extra_space `mod` expand_count))
  | YieldingZero => Ok (0, YieldingZero)
  | Leftover average_extra_space leftover =>
      Ok (resume_leftover average_extra_space leftover)
  | YieldingAverage average_extra_space =>
      Ok (average_extra_space, YieldingAverage average_extra_space)
  end.

Definition _extra_space_iter (total_extra_space : Z) : extra_space_iter :=
  NotStarted total_extra_space.

(** *** The position generator

    [_position_children] yields (packing, pos, child_length).  It is
    consumed lazily, so an exception raised while computing a later item is
    only seen by a consumer that asks for that item: the generator is the
    list of the items it yields followed by the way it ends. *)
Definition position : Type := packing * Z * Z.

Record positions : Type := Positions {
  yielded : list position;
  ending : option exn
}.

(** The length given to one child: its minimum, plus the next value of the
    generator when it has the expand flag. *)
Definition child_length_of (o : orientation) (expand_count : Z)
    (it : extra_space_iter) (p : packing) : result (Z * extra_space_iter) :=
  '(child_length, child_breadth) ← packing_calc_size (_translate o) p;
  if packing_expand p
  then '(extra, it') ← next expand_count it; mret (child_length + extra, it')
  else mret (child_length, it).

(** The first loop, over [self.children]. *)
Fixpoint position_leading (o : orientation) (spacing expand_count : Z)
    (it : extra_space_iter) (pos : Z) (ps : list packing)
  : list position * result extra_space_iter :=
  match ps with
  | [] => ([], Ok it)
  | p :: ps' =>
      match child_length_of o expand_count it p with
      | Raise e => ([], Raise e)
      | Ok (child_length, it') =>
          let '(rest, r) :=
            position_leading o spacing expand_count it'
              (pos + (child_length + spacing)) ps' in
          ((p, pos, child_length) :: rest, r)
      end
  end.

(** The second loop, over [self.children_end]. *)
Fixpoint position_trailing (o : orientation) (spacing expand_count : Z)
    (it : extra_space_iter) (pos : Z) (ps : list packing)
  : list position * result extra_space_iter :=
  match ps with
  | [] => ([], Ok it)
  | p :: ps' =>
      match child_length_of o expand_count it p with
      | Raise e => ([], Raise e)
      | Ok (child_length, it') =>
          let pos := pos - child_length in
          let '(rest, r) :=
            position_trailing o spacing expand_count it'
              (pos - spacing) ps' in
          ((p, pos, child_length) :: rest, r)
      end
  end.

Definition _position_children (self : t) (total_length : Z) : positions * t :=
  match get_size self with
  | (Raise e, self) => (Positions [] (Some e), self)
  | (Ok (w, h), self) =>
      let '(my_length, my_breadth) := _translate (kind self) w h in
      let it := _extra_space_iter (total_length - my_length) in
      let '(front, r) :=
        position_leading (kind self) (spacing self) (expand_count self)
          it 0 (children self) in
      match r with
      | Raise e => (Positions front (Some e), self)
      | Ok it =>
          let '(back, r) :=
            position_trailing (kind self) (spacing self) (expand_count self)
              it total_length (children_end self) in
          (Positions (front ++ back) (raised r), self)
      end
  end.

(** The loop of [_find_child_at] over the position generator. *)
Fixpoint find_child_loop (o : orientation) (pos total_breadth : Z)
    (items : list position) (ending : option exn)
  : result (option child_pos) :=
  match items with
  | [] =>
      match ending with
      | Some e => Raise e
      | None => Ok None
      end
  | (packing, child_pos, child_length) :: rest =>
      if (child_pos <=? pos) && (pos <? child_pos + child_length) then
        let '(x, y) := _translate o child_pos 0 in
        let '(width, height) := _translate o child_length total_breadth in
        match packing with
        | WhitespacePacking _ _ => Ok None
        | Packing child _ => Ok (Some (child, x, y, width, height))
        end
      else if pos <? child_pos then Ok None
      else find_child_loop o pos total_breadth rest ending
  end.

Definition _find_child_at (self : t) (x y width height : Z)
  : result (option child_pos) * t :=
  let '(total_length, total_breadth) := _translate (kind self) width height in
  let '(pos, offset) := _translate (kind self) x y in
  let '(position_iter, self) := _position_children self total_length in
  (find_child_loop (kind self) pos total_breadth
     (yielded position_iter) (ending position_iter), self).

Definition find_hotspot (self : t) (x y width height : Z)
  : result (option hotspot_info) :=
  Packer_find_hotspot
    (fun x y width height => (_find_child_at self x y width height).1)
    x y width height.

(** *** Notions for the statements about a box *)

Definition packing_sized (p : packing) : bool :=
  match p with
  | Packing child _ => can_be_drawn child
  | WhitespacePacking _ _ => true
  end.

(** The number of packings with the expand flag. *)
Definition expanding (ps : list packing) : nat :=
  List.length (List.filter packing_expand ps).

(** The state every box built by [__init__] and the four pack methods is
    in: [expand_count] counts the packings with the expand flag, and every
    packed child passed the test of [pack]. *)
Definition well_formed (self : t) : bool :=
  bool_decide (expand_count self =
    Z.of_nat (expanding (children self ++ children_end self)))
  && forallb packing_sized (children self ++ children_end self).

(** The bonus an expandable child got: its assigned length minus its own
    minimum.  Children without the flag are not listed. *)
Definition bonus_of (o : orientation) (item : position) : option Z :=
  let '(p, _, child_length) := item in
  if packing_expand p then
    match packing_calc_size (_translate o) p with
    | Ok (minimum, _) => Some (child_length - minimum)
    | Raise _ => None
    end
  else None.

Definition bonuses (o : orientation) (items : list position) : list Z :=
  omap (bonus_of o) items.

Definition total (zs : list Z) : Z := foldr Z.add 0 zs.

(** What a generator still owes: the number of values that come with one
    extra pixel, and the average. *)
Definition owed (expand_count : Z) (it : extra_space_iter) : Z * Z :=
  match it with
  | NotStarted total_extra_space =>
      if total_extra_space <=? 0 then (0, 0)
      else (total_extra_space `mod` expand_count,
            total_extra_space `div` expand_count)
  | YieldingZero => (0, 0)
  | Leftover average_extra_space leftover => (leftover, average_extra_space)
  | YieldingAverage average_extra_space => (0, average_extra_space)
  end.

(** The next [m] values of a generator that owes [(r, average)]. *)
Fixpoint spread (m : nat) (r average : Z) : list Z :=
  match m with
  | O => []
  | S m' =>
      (if 0 <? r then average + 1 else average)
        :: spread m' (Z.max 0 (r - 1)) average
  end.

(** A generator that can be resumed without failing: one that has not
    started divides by [expand_count] at its first [next()]. *)
Definition ready (expand_count : Z) (it : extra_space_iter) : Prop :=
  match it with
  | NotStarted total_extra_space => total_extra_space <= 0 \/ 0 < expand_count
  | Leftover _ leftover => 0 <= leftover
  | YieldingZero | YieldingAverage _ => True
  end.

(** A child without the expand flag got exactly its own minimum. *)
Definition keeps_minimum (o : orientation) (item : position) : Prop :=
  let '(p, _, child_length) := item in
  packing_expand p = false ->
  exists breadth, packing_calc_size (_translate o) p = Ok (child_length, breadth).

(** The boxes a program can build: the constructor, the four pack methods
    and [get_size], in any order. *)
Inductive built : t -> Prop :=
| built_init (o : orientation) (spacing : Z) :
    built (__init__ o spacing)
| built_pack (self self' : t) (child : obj) (expand : bool) :
    built self -> pack self child expand = Ok self' -> built self'
| built_pack_end (self self' : t) (child : obj) (expand : bool) :
    built self -> pack_end self child expand = Ok self' -> built self'
| built_pack_space (self : t) (size : Z) (expand : bool) :
    built self -> built (pack_space self size expand)
| built_pack_space_end (self : t) (size : Z) (expand : bool) :
    built self -> built (pack_space_end self size expand)
| built_get_size (self : t) :
    built self -> built (get_size self).2.

(** A box seen as a child of another packer.  The size it reports is the
    one [get_size] gives at the time it is packed. *)
Definition as_obj (self : t) : obj :=
  {| obj_truth := true;
     obj_has_draw := true;
     obj_get_size :=
       match (get_size self).1 with
       | Ok s => Some s
       | Raise _ => None
       end;
     obj_find_hotspot := Some (find_hotspot self);
     obj_find_child_at :=
       Some (fun x y width height => (_find_child_at self x y width height).1) |}.

(** *** Drawing the children *)

(** The loop of [_layout] over the position generator: the calls made, and
    the exception that cut the loop short, if any. *)
Fixpoint layout_loop (o : orientation) (pos offset total_breadth : Z)
    (items : list position) (ending : option exn)
  : list draw_call * option exn :=
  match items with
  | [] => ([], ending)
  | (packing, child_pos, child_length) :: rest =>
      let '(x, y) := _translate o (pos + child_pos) offset in
      let '(width, height) := _translate o child_length total_breadth in
      match packing_draw packing x y width height with
      | Raise e => ([], Some e)
      | Ok calls =>
          let '(later, e) :=
            layout_loop o pos offset total_breadth rest ending in
          (calls ++ later, e)
      end
  end.

Definition _layout (self : t) (x y width height : Z)
  : (list draw_call * option exn) * t :=
  let '(total_length, total_breadth) := _translate (kind self) width height in
  let '(pos, offset) := _translate (kind self) x y in
  let '(position_iter, self) := _position_children self total_length in
  (layout_loop (kind self) pos offset total_breadth
     (yielded position_iter) (ending position_iter), self).

(** The minimum length of a packing along the axis is not negative. *)
Definition length_nonneg (o : orientation) (p : packing) : bool :=
  match packing_calc_size (_translate o) p with
  | Ok (child_length, _) => 0 <=? child_length
  | Raise _ => true
  end.

End Box.

(** ** Table *)

Module Table.

Record t : Type := Make {
  row_length : Z;
  col_length : Z;
  row_spacing : Z;
  col_spacing : Z;
  table_multiarray : list (list (option packing));
  size_memo : option (Z * Z)
}.

Definition _generate_table_multiarray (row_length col_length : Z)
  : list (list (option packing)) :=
  replicate (Z.to_nat row_length) (replicate (Z.to_nat col_length) None).

Definition __init__ (row_length col_length row_spacing col_spacing : Z)
  : result t :=
  if negb (0 <? Z.min row_length col_length) then Raise AssertionError
  else Ok {| row_length := row_length;
             col_length := col_length;
             row_spacing := row_spacing;
             col_spacing := col_spacing;
             table_multiarray :=
               _generate_table_multiarray row_length col_length;
             size_memo := None |}.

(** The position a Python list of length [len] gives to index [i]:
    negative indices count from the end, anything else out of range
    raises [IndexError]. *)
Definition list_index (len : nat) (i : Z) : result nat :=
  if (0 <=? i) && (i <? Z.of_nat len) then Ok (Z.to_nat i)
  else if (- Z.of_nat len <=? i) && (i <? 0) then Ok (Z.to_nat (Z.of_nat len + i))
  else Raise IndexError.

(** [pack] makes no test on [child]. *)
Definition pack (self : t) (child : obj) (row column : Z) (expand : bool)
  : result t :=
  r ← list_index (List.length (table_multiarray self)) row;
  let cells := default [] (table_multiarray self !! r) in
  c ← list_index (List.length cells) column;
  mret {| row_length := row_length self;
          col_length := col_length self;
          row_spacing := row_spacing self;
          col_spacing := col_spacing self;
          table_multiarray :=
            <[r := <[c := Some (Packing child expand)]> cells]>
              (table_multiarray self);
          size_memo := size_memo self |}.

Definition _translate (x y : Z) : Z * Z := (x, y).

(** [d.setdefault(k, 0)] and [d[k]] on a dict with integer keys. *)
Definition setdefault (k : nat) (d : gmap nat Z) : gmap nat Z :=
  match d !! k with
  | Some _ => d
  | None => <[k := 0]> d
  end.

Definition getitem (d : gmap nat Z) (k : nat) : result Z :=
  match d !! k with
  | Some v => Ok v
  | None => Raise KeyError
  end.

(** The inner loop of [_get_grid_sizes], over the cells of one row. *)
Fixpoint grid_sizes_row (row_count col_count : nat)
    (row : list (option packing)) (col_sizes row_sizes : gmap nat Z)
  : result (gmap nat Z * gmap nat Z) :=
  match row with
  | [] => Ok (col_sizes, row_sizes)
  | col_packing :: rest =>
      let col_sizes := setdefault col_count col_sizes in
      match col_packing with
      | None => grid_sizes_row row_count (S col_count) rest col_sizes row_sizes
      | Some packing =>
          '(x, y) ← packing_calc_size _translate packing;
          rs ← getitem row_sizes row_count;
          let row_sizes :=
            if rs <? y then <[row_count := y]> row_sizes else row_sizes in
          cs ← getitem col_sizes col_count;
          let col_sizes :=
            if cs <? x then <[col_count := x]> col_sizes else col_sizes in
          grid_sizes_row row_count (S col_count) rest col_sizes row_sizes
      end
  end.

(** The outer loop, over the rows. *)
Fixpoint grid_sizes_rows (row_count : nat)
    (rows : list (list (option packing))) (col_sizes row_sizes : gmap nat Z)
  : result (gmap nat Z * gmap nat Z) :=
  match rows with
  | [] => Ok (col_sizes, row_sizes)
  | row :: rest =>
      let row_sizes := setdefault row_count row_sizes in
      '(col_sizes, row_sizes) ←
        grid_sizes_row row_count 0 row col_sizes row_sizes;
      grid_sizes_rows (S row_count) rest col_sizes row_sizes
  end.

Definition _get_grid_sizes (self : t) : result (gmap nat Z * gmap nat Z) :=
  grid_sizes_rows 0 (table_multiarray self) ∅ ∅.

(** [packing.child]: only a [Packing] has the attribute. *)
Definition packing_child (p : packing) : result obj :=
  match p with
  | Packing child _ => Ok child
  | WhitespacePacking _ _ => Raise AttributeError
  end.

(** The inner loop of [_find_child_at].  [Some] is the [return] inside the
    loop; [None] is falling out of it, with nothing to report since the
    column offset is local to the row.  An empty cell is [None] in Python,
    and [None.calc_size] raises [AttributeError]. *)
Fixpoint find_child_in_row (x y : Z) (col_sizes : gmap nat Z)
    (col_spacing row_distance : Z) (col_count : nat) (col_distance : Z)
    (row : list (option packing)) : result (option child_pos) :=
  match row with
  | [] => Ok None
  | cell :: rest =>
      match cell with
      | None => Raise AttributeError
      | Some packing =>
          '(child_width, child_height) ← packing_calc_size _translate packing;
          child ← packing_child packing;
          if obj_truth child
             && ((col_distance <=? x) && (x <? col_distance + child_width)
                 && ((row_distance <=? y) && (y <? row_distance + child_height)))
          then Ok (Some (child, col_distance, row_distance,
                         child_width, child_height))
          else
            cs ← getitem col_sizes col_count;
            find_child_in_row x y col_sizes col_spacing row_distance
              (S col_count) (col_distance + (cs + col_spacing)) rest
      end
  end.

(** The outer loop of [_find_child_at]. *)
Fixpoint find_child_in_rows (x y : Z) (col_sizes row_sizes : gmap nat Z)
    (col_spacing row_spacing : Z) (row_count : nat) (row_distance : Z)
    (rows : list (list (option packing))) : result (option child_pos) :=
  match rows with
  | [] => Ok None
  | row :: rest =>
      found ← find_child_in_row x y col_sizes col_spacing row_distance 0 0 row;
      match found with
      | Some hit => Ok (Some hit)
      | None =>
          rs ← getitem row_sizes row_count;
          find_child_in_rows x y col_sizes row_sizes col_spacing row_spacing
            (S row_count) (row_distance + (rs + row_spacing)) rest
      end
  end.

Definition _find_child_at (self : t) (x y width height : Z)
  : result (option child_pos) :=
  '(col_sizes, row_sizes) ← _get_grid_sizes self;
  find_child_in_rows x y col_sizes row_sizes
    (col_spacing self) (row_spacing self) 0 0 (table_multiarray self).

Definition find_hotspot (self : t) (x y width height : Z)
  : result (option hotspot_info) :=
  Packer_find_hotspot (_find_child_at self) x y width height.

(** [sum(d.values())] *)
Definition sum_values (d : gmap nat Z) : Z :=
  map_fold (fun _ v acc => v + acc) 0 d.

Definition calc_size (self : t) : result (Z * Z) :=
  '(col_sizes, row_sizes) ← _get_grid_sizes self;
  let x := sum_values col_sizes + (col_length self - 1) * col_spacing self in
  let y := sum_values row_sizes + (row_length self - 1) * row_spacing self in
  mret (x, y).

#[global] Instance packer : Packer t := {|
  _calc_size := calc_size;
  _size := size_memo;
  set__size := fun s self =>
    {| row_length := row_length self;
       col_length := col_length self;
       row_spacing := row_spacing self;
       col_spacing := col_spacing self;
       table_multiarray := table_multiarray self;
       size_memo := Some s |}
|}.

(** *** Drawing the cells *)

(** The inner loop of [_layout]: an empty cell is stepped over. *)
Fixpoint layout_row (x y : Z) (col_sizes : gmap nat Z)
    (col_spacing row_distance : Z) (col_count : nat) (col_distance : Z)
    (row : list (option packing)) : list draw_call * option exn :=
  match row with
  | [] => ([], None)
  | cell :: rest =>
      let drawn : result (list draw_call) :=
        match cell with
        | None => Ok []
        | Some packing =>
            '(child_width, child_height) ← packing_calc_size _translate packing;
            child ← packing_child packing;
            call_draw child (x + col_distance) (y + row_distance)
              child_width child_height
        end in
      match drawn with
      | Raise e => ([], Some e)
      | Ok calls =>
          match getitem col_sizes col_count with
          | Raise e => (calls, Some e)
          | Ok cs =>
              let '(later, e) :=
                layout_row x y col_sizes col_spacing row_distance
                  (S col_count) (col_distance + (cs + col_spacing)) rest in
              (calls ++ later, e)
          end
      end
  end.

(** The outer loop of [_layout]. *)
Fixpoint layout_rows (x y : Z) (col_sizes row_sizes : gmap nat Z)
    (col_spacing row_spacing : Z) (row_count : nat) (row_distance : Z)
    (rows : list (list (option packing))) : list draw_call * option exn :=
  match rows with
  | [] => ([], None)
  | row :: rest =>
      match layout_row x y col_sizes col_spacing row_distance 0 0 row with
      | (calls, Some e) => (calls, Some e)
      | (calls, None) =>
          match getitem row_sizes row_count with
          | Raise e => (calls, Some e)
          | Ok rs =>
              let '(later, e) :=
                layout_rows x y col_sizes row_sizes col_spacing row_spacing
                  (S row_count) (row_distance + (rs + row_spacing)) rest in
              (calls ++ later, e)
          end
      end
  end.

Definition _layout (self : t) (x y width height : Z)
  : list draw_call * option exn :=
  match _get_grid_sizes self with
  | Raise e => ([], Some e)
  | Ok (col_sizes, row_sizes) =>
      layout_rows x y col_sizes row_sizes (col_spacing self) (row_spacing self)
        0 0 (table_multiarray self)
  end.

(** The cell at a row and a column, counted from 0; [None] also where the
    grid has no such cell. *)
Definition cell (self : t) (r c : nat) : option packing :=
  row ← table_multiarray self !! r; mjoin (row !! c).

(** The grid has [rows] rows of [cols] cells each. *)
Definition has_shape (self : t) (rows cols : nat) : Prop :=
  List.length (table_multiarray self) = rows /\
  Forall (fun row => List.length row = cols) (table_multiarray self).

(** A populated cell that [_layout] can draw: a [Packing] whose child
    has [draw] and [get_size]. *)
Definition drawable_cell (c : option packing) : bool :=
  match c with
  | None => true
  | Some (Packing child _) => Box.can_be_drawn child
  | Some (WhitespacePacking _ _) => false
  end.

(** The number of populated cells of the grid. *)
Definition populated (self : t) : nat :=
  List.length (List.filter (fun c : option packing => bool_decide (is_Some c))
                 (concat (table_multiarray self))).

(** A dict of sizes that only gained keys and whose values only grew. *)
Definition grows (d d' : gmap nat Z) : Prop :=
  forall k v, d !! k = Some v -> exists v', d' !! k = Some v' /\ v <= v'.

Definition nonneg (d : gmap nat Z) : Prop :=
  forall k v, d !! k = Some v -> 0 <= v.

End Table.

(** ** Hotspot and Padding, as children of other packers *)

Module Hotspot.

(** [Hotspot] overrides [find_hotspot] and inherits [_find_child_at] from
    [Packer], which raises [NotImplementedError]. *)
Definition as_obj (name : string) (child : obj) : obj :=
  {| obj_truth := true;
     obj_has_draw := true;
     obj_get_size := obj_get_size child;
     obj_find_hotspot :=
       Some (fun x y width height => Ok (Some (name, x, y, width, height)));
     obj_find_child_at :=
       Some (fun _ _ _ _ => Raise NotImplementedError) |}.

End Hotspot.

Module Padding.

Record t : Type := Make {
  child : obj;
  margin : Margin.t
}.

Definition __init__ (child : obj) (top right bottom left : Z) : t :=
  {| child := child;
     margin := Margin.__init__ (Some (top, right, bottom, left)) |}.

Definition calc_size (self : t) : result (Z * Z) :=
  s ← call_get_size (child self);
  mret (Margin.outer_size (margin self) s).

Definition _find_child_at (self : t) (x y width height : Z)
  : result (option child_pos) :=
  if negb (Margin.point_in_margin (margin self) x y width height)
  then Ok None
  else
    let '(ix, iy, iw, ih) := Margin.inner_rect (margin self) 0 0 width height in
    Ok (Some (child self, ix, iy, iw, ih)).

Definition find_hotspot (self : t) (x y width height : Z)
  : result (option hotspot_info) :=
  Packer_find_hotspot (_find_child_at self) x y width height.

Definition as_obj (self : t) : obj :=
  {| obj_truth := true;
     obj_has_draw := true;
     obj_get_size :=
       match calc_size self with
       | Ok s => Some s
       | Raise _ => None
       end;
     obj_find_hotspot := Some (find_hotspot self);
     obj_find_child_at := Some (_find_child_at self) |}.

(** [_layout]: the child is drawn in the inner rect. *)
Definition _layout (self : t) (x y width height : Z)
  : result (list draw_call) :=
  let '(ix, iy, iw, ih) := Margin.inner_rect (margin self) x y width height in
  call_draw (child self) ix iy iw ih.

End Padding.

(** ** Background *)

Module Background.

(** [callback_info] is the drawing callback with its arguments, an opaque
    callable stood for by its name. *)
Record t : Type := Make {
  child : obj;
  min_width : Z;
  min_height : Z;
  margin : Margin.t;
  callback_info : option string
}.

Definition __init__ (child : obj) (min_width min_height : Z)
    (margin : option (Z * Z * Z * Z)) : t :=
  {| child := child;
     min_width := min_width;
     min_height := min_height;
     margin := Margin.__init__ margin;
     callback_info := None |}.

Definition set_callback (self : t) (callback : string) : t :=
  {| child := child self;
     min_width := min_width self;
     min_height := min_height self;
     margin := margin self;
     callback_info := Some callback |}.

Definition calc_size (self : t) : result (Z * Z) :=
  '(width, height) ← call_get_size (child self);
  let width := Z.max (min_width self) width in
  let height := Z.max (min_height self) height in
  mret (Margin.outer_size (margin self) (width, height)).

Definition _find_child_at (self : t) (x y width height : Z)
  : result (option child_pos) :=
  if negb (Margin.point_in_margin (margin self) x y width height)
  then Ok None
  else
    let '(ix, iy, iw, ih) := Margin.inner_rect (margin self) 0 0 width height in
    Ok (Some (child self, ix, iy, iw, ih)).

Definition find_hotspot (self : t) (x y width height : Z)
  : result (option hotspot_info) :=
  Packer_find_hotspot (_find_child_at self) x y width height.

End Background.

(** ** Stack *)

Module Stack.

Record t : Type := Make {
  children : list obj;
  size_memo : option (Z * Z)
}.

Definition __init__ : t := {| children := []; size_memo := None |}.

(** Neither [pack] nor [pack_below] makes any test on [packer]. *)
Definition pack (self : t) (packer : obj) : t :=
  {| children := children self ++ [packer]; size_memo := size_memo self |}.

Definition pack_below (self : t) (packer : obj) : t :=
  {| children := packer :: children self; size_memo := size_memo self |}.

Fixpoint calc_size_loop (ps : list obj) (width height : Z) : result (Z * Z) :=
  match ps with
  | [] => Ok (width, height)
  | packer :: rest =>
      '(child_width, child_height) ← call_get_size packer;
      calc_size_loop rest (Z.max width child_width) (Z.max height child_height)
  end.

Definition calc_size (self : t) : result (Z * Z) :=
  calc_size_loop (children self) 0 0.

#[global] Instance packer : Packer t := {|
  _calc_size := calc_size;
  _size := size_memo;
  set__size := fun s self =>
    {| children := children self; size_memo := Some s |}
|}.

(** [self.children[-1]] raises [IndexError] on an empty list, which the
    method turns into [None]. *)
Definition _find_child_at (self : t) (x y width height : Z)
  : result (option child_pos) :=
  match last (children self) with
  | None => Ok None
  | Some top => call_find_child_at top x y width height
  end.

Definition find_hotspot (self : t) (x y width height : Z)
  : result (option hotspot_info) :=
  Packer_find_hotspot (_find_child_at self) x y width height.

End Stack.

(** ** LayoutRect and Layout

    A [LayoutRect] is a mutable object and a [Layout] holds references to
    such objects: [add_rect] stores the very rect it is given, and [merge]
    copies references, so one rect may sit in a layout several times, or
    in several layouts.  Rects live in a heap and a layout holds their
    addresses. *)

Module LayoutRect.

Record t : Set := Make {
  x : Z;
  y : Z;
  width : Z;
  height : Z
}.

#[global] Instance inhabited : Inhabited t := populate (Make 0 0 0 0).

Definition is_point_inside (self : t) (px py : Z) : bool :=
  ((x self <=? px) && (px <? x self + width self))
  && ((y self <=? py) && (py <? y self + height self)).

Definition get_right (self : t) : Z := x self + width self.

Definition get_bottom (self : t) : Z := y self + height self.



(** The methods that make a new rect from this one. *)
Definition subsection (self : t) (left_ right_ top bottom : Z) : t :=
  Make (x self + left_) (y self + top)
       (width self - left_ - right_) (height self - top - bottom).

Definition right_side (self : t) (w : Z) : t :=
  Make (get_right self - w) (y self) w (height self).

Definition left_side (self : t) (w : Z) : t :=
  Make (x self) (y self) w (height self).

Definition top_side (self : t) (h : Z) : t :=
  Make (x self) (y self) (width self) h.

Definition bottom_side (self : t) (h : Z) : t :=
  Make (x self) (get_bottom self - h) (width self) h.

Definition past_right (self : t) (w : Z) : t :=
  Make (get_right self) (y self) w (height self).

Definition past_left (self : t) (w : Z) : t :=
  Make (x self - w) (y self) w (height self).

Definition past_top (self : t) (h : Z) : t :=
  Make (x self) (y self - h) (width self) h.

Definition past_bottom (self : t) (h : Z) : t :=
  Make (x self) (get_bottom self) (width self) h.

End LayoutRect.

Module Layout.

Definition ref : Set := positive.

Abbreviation heap := (gmap positive LayoutRect.t).

(** (rect, drawing_function, hotspot); a drawing function is an opaque
    callable, stood for by its name. *)
Definition element : Type := ref * option string * option string.

Record t : Type := Make {
  _rects : list element;
  last_rect : option ref
}.

Definition __init__ : t := {| _rects := []; last_rect := None |}.

Definition rect_count (self : t) : nat := List.length (_rects self).

(** [LayoutRect(x, y, width, height)]: a new object. *)
Definition new_rect (h : heap) (rect : LayoutRect.t) : ref * heap :=
  let r := fresh (dom h) in (r, <[r := rect]> h).

Definition add_rect (self : t) (layout_rect : ref)
    (drawing_function hotspot : option string) : ref * t :=
  (layout_rect,
   {| _rects := _rects self ++ [(layout_rect, drawing_function, hotspot)];
      last_rect := Some layout_rect |}).

Definition add (h : heap) (self : t) (x y width height : Z)
    (drawing_function hotspot : option string) : ref * (heap * t) :=
  let '(r, h) := new_rect h (LayoutRect.Make x y width height) in
  let '(r, self) := add_rect self r drawing_function hotspot in
  (r, (h, self)).

Definition merge (self layout : t) : t :=
  {| _rects := _rects self ++ _rects layout;
     last_rect := last_rect layout |}.

(** [for rect, _, _ in self._rects: <update rect>], the loop of
    [translate], [center_x] and [center_y]. *)
Fixpoint for_each_rect (update : LayoutRect.t -> LayoutRect.t)
    (rects : list element) (h : heap) : heap :=
  match rects with
  | [] => h
  | (rect, _, _) :: rest => for_each_rect update rest (alter update rect h)
  end.

Definition move (delta_x delta_y : Z) (rect : LayoutRect.t) : LayoutRect.t :=
  {| LayoutRect.x := LayoutRect.x rect + delta_x;
     LayoutRect.y := LayoutRect.y rect + delta_y;
     LayoutRect.width := LayoutRect.width rect;
     LayoutRect.height := LayoutRect.height rect |}.

Definition translate (h : heap) (self : t) (delta_x delta_y : Z) : heap :=
  for_each_rect (move delta_x delta_y) (_rects self) h.

(** [max] over a generator: [ValueError] when it yields nothing. *)
Definition py_max (zs : list Z) : result Z :=
  match zs with
  | [] => Raise ValueError
  | z :: rest => Ok (foldl Z.max z rest)
  end.

Definition max_width (h : heap) (self : t) : result Z :=
  py_max (map (fun e : element => LayoutRect.width (h !!! e.1.1)) (_rects self)).

Definition max_height (h : heap) (self : t) : result Z :=
  py_max (map (fun e : element => LayoutRect.height (h !!! e.1.1)) (_rects self)).

Definition set_centered_x (left_ area_width : Z) (rect : LayoutRect.t)
  : LayoutRect.t :=
  {| LayoutRect.x := left_ + (area_width - LayoutRect.width rect) `div` 2;
     LayoutRect.y := LayoutRect.y rect;
     LayoutRect.width := LayoutRect.width rect;
     LayoutRect.height := LayoutRect.height rect |}.

Definition set_centered_y (top area_height : Z) (rect : LayoutRect.t)
  : LayoutRect.t :=
  {| LayoutRect.x := LayoutRect.x rect;
     LayoutRect.y := top + (area_height - LayoutRect.height rect) `div` 2;
     LayoutRect.width := LayoutRect.width rect;
     LayoutRect.height := LayoutRect.height rect |}.

(** The heap is returned next to the outcome: it is what the caller
    finds after the call, whether the call returned or raised. *)
Definition center_x (h : heap) (self : t) (left right : option Z)
  : heap * result unit :=
  let bounds : result (Z * Z) :=
    match left with
    | None =>
        match right with
        | None => Raise ValueError
        | Some right_ => mw ← max_width h self; mret (right_ - mw, right_)
        end
    | Some left_ =>
        match right with
        | None => mw ← max_width h self; mret (left_, left_ + mw)
        | Some right_ => mret (left_, right_)
        end
    end in
  match bounds with
  | Raise e => (h, Raise e)
  | Ok (left_, right_) =>
      let area_width := right_ - left_ in
      (for_each_rect (set_centered_x left_ area_width) (_rects self) h, Ok ())
  end.

Definition center_y (h : heap) (self : t) (top bottom : option Z)
  : heap * result unit :=
  let bounds : result (Z * Z) :=
    match top with
    | None =>
        match bottom with
        | None => Raise ValueError
        | Some bottom => mh ← max_height h self; mret (bottom - mh, bottom)
        end
    | Some top =>
        match bottom with
        | None => mh ← max_height h self; mret (top, top + mh)
        | Some bottom => mret (top, bottom)
        end
    end in
  match bounds with
  | Raise e => (h, Raise e)
  | Ok (top, bottom) =>
      let area_height := bottom - top in
      (for_each_rect (set_centered_y top area_height) (_rects self) h, Ok ())
  end.

(** The loop of [find_hotspot]; the answer is (hotspot, x, y). *)
Fixpoint find_hotspot_loop (h : heap) (rects : list element) (x y : Z)
  : option (string * Z * Z) :=
  match rects with
  | [] => None
  | (rect, drawing_function, hotspot) :: rest =>
      match hotspot with
      | Some tag =>
          if LayoutRect.is_point_inside (h !!! rect) x y
          then Some (tag, x - LayoutRect.x (h !!! rect),
                          y - LayoutRect.y (h !!! rect))
          else find_hotspot_loop h rest x y
      | None => find_hotspot_loop h rest x y
      end
  end.

Definition find_hotspot (h : heap) (self : t) (x y : Z)
  : option (string * Z * Z) :=
  find_hotspot_loop h (_rects self) x y.

(** *** Notions for the statements about a layout *)

(** An element is hit when it carries a tag and its rect holds the point. *)
Definition hit (h : heap) (x y : Z) (e : element) : bool :=
  bool_decide (is_Some e.2) && LayoutRect.is_point_inside (h !!! e.1.1) x y.

(** The number of elements of the layout that hold the rect [r]. *)
Definition occurrences (r : ref) (rects : list element) : nat :=
  List.length (List.filter (fun e : element => bool_decide (e.1.1 = r)) rects).

(** The elements as a reader sees them, each with the present value of
    its rect. *)
Definition view (h : heap) (self : t)
  : list (LayoutRect.t * option string * option string) :=
  map (fun e : element => (h !!! e.1.1, e.1.2, e.2)) (_rects self).

(** Every rect the layout refers to is an object of the heap. *)
Definition allocated (h : heap) (self : t) : Prop :=
  Forall (fun e : element => is_Some (h !! e.1.1)) (_rects self).

(** [draw]: the drawing functions called, in order, each with the
    present value of its rect; an element without one is passed over. *)
Fixpoint draw_loop (h : heap) (rects : list element)
  : list (string * Z * Z * Z * Z) :=
  match rects with
  | [] => []
  | (rect, drawing_function, hotspot) :: rest =>
      match drawing_function with
      | Some f =>
          (f, LayoutRect.x (h !!! rect), LayoutRect.y (h !!! rect),
              LayoutRect.width (h !!! rect), LayoutRect.height (h !!! rect))
            :: draw_loop h rest
      | None => draw_loop h rest
      end
  end.

Definition draw (h : heap) (self : t) : list (string * Z * Z * Z * Z) :=
  draw_loop h (_rects self).

(** No rect object is held by two elements. *)
Definition unshared (self : t) : Prop :=
  NoDup (map (fun e : element => e.1.1) (_rects self)).

End Layout.

(** ** What holds of every packer class

    The memo attribute is an attribute like any other: setting it is read
    back, and the sizing routine does not look at it. *)
Class PackerLaws (P : Type) `{Packer P} := {
  size_set : forall (s : Z * Z) (self : P), _size (set__size s self) = Some s;
  calc_size_set :
    forall (s : Z * Z) (self : P), _calc_size (set__size s self) = _calc_size self
}.

(** ** Concrete layouts used to exercise the definitions *)

Module Scenario.

(** [b = HBox(spacing=2); b.pack(w1, expand=True); b.pack(w2);
    b.pack_end(w3, expand=True); b.pack_space(3, expand=True)] with widgets
    of sizes 10x5, 20x8 and 5x4. *)
Definition expanding_box : result Box.t :=
  b ← Box.pack (Box.__init__ Box.HBox 2) (leaf 10 5) true;
  b ← Box.pack b (leaf 20 8) false;
  b ← Box.pack_end b (leaf 5 4) true;
  mret (Box.pack_space b 3 true).

(** [b = HBox(); b.pack_end(first); b.pack_end(second)] with widgets of
    sizes 10x10 and 10x12: in a width of 100 the first is drawn at 90..100
    and the second at 80..90. *)
Definition first_trailing : obj := leaf 10 10.
Definition second_trailing : obj := leaf 10 12.

Definition two_trailing : result Box.t :=
  b ← Box.pack_end (Box.__init__ Box.HBox 0) first_trailing false;
  Box.pack_end b second_trailing false.

(** [t = Table(1, 2); t.pack(w, 0, 1)]: the cell (0, 0) is never packed. *)
Definition sparse_table : result Table.t :=
  t ← Table.__init__ 1 2 0 0;
  Table.pack t (leaf 10 10) 0 1 false.

(** Three packers, each a hotspot over a 10x10 widget behind no padding,
    stacked in the order first, second, third. *)
Definition named (name : string) : obj :=
  Padding.as_obj (Padding.__init__ (Hotspot.as_obj name (leaf 10 10)) 0 0 0 0).

Definition three_stacked : Stack.t :=
  Stack.pack (Stack.pack (Stack.pack Stack.__init__ (named "first"))
                (named "second")) (named "third").

(** [s = Stack(); s.pack(Hotspot('first', w)); s.pack(Hotspot('second', w));
    s.pack(Hotspot('third', w))] with a 10x10 widget: three packers, each
    a [Hotspot] put on the stack as it is. *)
Definition three_hotspots : Stack.t :=
  Stack.pack (Stack.pack (Stack.pack Stack.__init__
                            (Hotspot.as_obj "first" (leaf 10 10)))
                (Hotspot.as_obj "second" (leaf 10 10)))
    (Hotspot.as_obj "third" (leaf 10 10)).

(** [r = LayoutRect(0, 0, 10, 10); l = Layout(); l.add_rect(r);
    l.add_rect(r, hotspot='a')]: one rect object held by two elements. *)
Definition shared_rect : Layout.ref * Layout.heap :=
  Layout.new_rect ∅ (LayoutRect.Make 0 0 10 10).

Definition shared_rect_layout : Layout.t :=
  let '(_, l) := Layout.add_rect Layout.__init__ shared_rect.1 None None in
  let '(_, l) := Layout.add_rect l shared_rect.1 None (Some "a"%string) in
  l.

(** [l = Layout(); l.add(0, 0, 10, 10, hotspot='low'); l.add(0, 0, 20, 20)]:
    a tagged rect, then a larger untagged one over it. *)
Definition covered_layout : Layout.heap * Layout.t :=
  let '(_, (h, l)) :=
    Layout.add ∅ Layout.__init__ 0 0 10 10 None (Some "low"%string) in
  let '(_, (h, l)) := Layout.add h l 0 0 20 20 (Some "draw"%string) None in
  (h, l).


(** [b = HBox(); b.pack(w); b.pack(Hotspot('right', w2))] with widgets of
    sizes 10x10 and 20x10. *)
Definition box_with_hotspot : Box.t :=
  {| Box.kind := Box.HBox;
     Box.spacing := 0;
     Box.children :=
       [Packing (leaf 10 10) false;
        Packing (Hotspot.as_obj "right" (leaf 20 10)) false];
     Box.children_end := [];
     Box.expand_count := 0;
     Box.size_memo := None |}.

End Scenario.

(** * Properties *)

(** ** Margin round trip *)

(** C8: for every margin and every rect (x, y, w, h), [outer_size] applied
    to the width and height components of [inner_rect x y w h] gives back
    (w, h). *)
Theorem Margin_inner_outer_roundtrip :
  forall (margin : option (Z * Z * Z * Z)) (x y w h : Z),
    let m := Margin.__init__ margin in
    let '(_, _, iw, ih) := Margin.inner_rect m x y w h in
    Margin.outer_size m (iw, ih) = (w, h).
Proof.
  intros margin x y w h. unfold Margin.inner_rect, Margin.outer_size. simpl.
  f_equal; lia.
Qed.

(** ** The extra-space generator *)

Lemma next_spec (ec : Z) (it : Box.extra_space_iter) :
  Box.ready ec it ->
  exists it',
    Box.next ec it =
      Ok (if 0 <? (Box.owed ec it).1 then (Box.owed ec it).2 + 1
          else (Box.owed ec it).2, it') /\
    Box.ready ec it' /\
    Box.owed ec it' = (Z.max 0 ((Box.owed ec it).1 - 1), (Box.owed ec it).2).
Proof.
  destruct it as [e| |avg l|avg]; simpl; intros Hr.
  - destruct (Z.leb_spec e 0) as [He|He]; simpl.
    + eexists; split; [reflexivity|]. simpl. split; [exact I|reflexivity].
    + destruct Hr as [Hr|Hr]; [lia|].
      destruct (Z.eqb_spec ec 0) as [->|_]; [lia|].
      pose proof (Z.mod_pos_bound e ec Hr) as Hm.
      unfold Box.resume_leftover.
      destruct (Z.ltb_spec 1 (e `mod` ec)), (Z.ltb_spec 0 (e `mod` ec));
        try lia.
      * eexists; split; [reflexivity|]. simpl. split; [lia|f_equal; lia].
      * eexists; split; [do 2 f_equal; lia|]. simpl. split; [exact I|f_equal; lia].
      * eexists; split; [do 2 f_equal; lia|]. simpl. split; [exact I|f_equal; lia].
  - eexists; split; [reflexivity|]. simpl. split; [exact I|reflexivity].
  - unfold Box.resume_leftover.
    destruct (Z.ltb_spec 1 l), (Z.ltb_spec 0 l); try lia.
    + eexists; split; [reflexivity|]. simpl. split; [lia|f_equal; lia].
    + eexists; split; [do 2 f_equal; lia|]. simpl. split; [exact I|f_equal; lia].
    + eexists; split; [do 2 f_equal; lia|]. simpl. split; [exact I|f_equal; lia].
  - eexists; split; [reflexivity|]. simpl. split; [exact I|reflexivity].
Qed.

Lemma spread_clamp (m : nat) (r avg : Z) :
  Box.spread m (Z.max 0 r) avg = Box.spread m r avg.
Proof.
  destruct m as [|m]; simpl; [reflexivity|].
  replace (Z.max 0 (Z.max 0 r - 1)) with (Z.max 0 (r - 1)) by lia.
  destruct (Z.ltb_spec 0 r), (Z.ltb_spec 0 (Z.max 0 r)); try lia; reflexivity.
Qed.

Lemma spread_app (m1 m2 : nat) (r avg : Z) :
  Box.spread (m1 + m2) r avg =
  Box.spread m1 r avg ++ Box.spread m2 (Z.max 0 (r - Z.of_nat m1)) avg.
Proof.
  revert r. induction m1 as [|m1 IH]; intros r; simpl.
  - rewrite Z.sub_0_r, spread_clamp. reflexivity.
  - f_equal. rewrite IH. do 2 f_equal. lia.
Qed.



Lemma spread_total (m : nat) (r avg : Z) :
  0 <= r <= Z.of_nat m ->
  Box.total (Box.spread m r avg) = Z.of_nat m * avg + r.
Proof.
  revert r. induction m as [|m IH]; intros r Hr; simpl.
  - lia.
  - rewrite IH by lia. destruct (Z.ltb_spec 0 r); lia.
Qed.


Lemma spread_zero (m : nat) (avg : Z) :
  Box.spread m 0 avg = replicate m avg.
Proof. induction m; simpl; [|rewrite <- IHm]; reflexivity. Qed.

Lemma packing_sized_calc_size (o : Box.orientation) (p : packing) :
  Box.packing_sized p = true ->
  exists l b, packing_calc_size (Box._translate o) p = Ok (l, b).
Proof.
  destruct p as [c e|s e]; simpl.
  - unfold Box.can_be_drawn, call_get_size.
    intros [_ Hs%bool_decide_eq_true]%andb_true_iff.
    destruct Hs as [[w h] ->]. simpl.
    destruct (Box._translate o w h) as [l b]. eauto.
  - eauto.
Qed.

Lemma child_length_of_spec (o : Box.orientation) (ec : Z)
    (it : Box.extra_space_iter) (p : packing) :
  Box.ready ec it ->
  Box.packing_sized p = true ->
  exists len it',
    Box.child_length_of o ec it p = Ok (len, it') /\
    Box.ready ec it' /\
    (forall pos, Box.keeps_minimum o (p, pos, len)) /\
    (forall pos, Box.bonus_of o (p, pos, len) =
       if packing_expand p
       then Some (if 0 <? (Box.owed ec it).1 then (Box.owed ec it).2 + 1
                  else (Box.owed ec it).2)
       else None) /\
    Box.owed ec it' =
      if packing_expand p
      then (Z.max 0 ((Box.owed ec it).1 - 1), (Box.owed ec it).2)
      else Box.owed ec it.
Proof.
  intros Hr Hs.
  destruct (packing_sized_calc_size o p Hs) as (l & b & Hc).
  unfold Box.child_length_of, Box.bonus_of, Box.keeps_minimum.
  rewrite Hc. simpl.
  destruct (packing_expand p) eqn:He.
  - destruct (next_spec ec it Hr) as (it' & Hn & Hr' & Ho).
    rewrite Hn. simpl. eexists _, it'. split; [reflexivity|].
    split; [exact Hr'|]. split; [discriminate|].
    split; [|exact Ho]. intros _. f_equal. lia.
  - eexists l, it. split; [reflexivity|]. split; [exact Hr|].
    split; [eauto|]. split; reflexivity.
Qed.

Lemma ready_owed_nonneg (ec : Z) (it : Box.extra_space_iter) :
  Box.ready ec it -> 0 <= (Box.owed ec it).1.
Proof.
  destruct it as [e| |avg l|avg]; simpl; try lia.
  destruct (Z.leb_spec e 0); simpl; [lia|].
  intros [?|Hec]; [lia|]. apply Z.mod_pos_bound. exact Hec.
Qed.

Lemma expanding_cons (p : packing) (ps : list packing) :
  Box.expanding (p :: ps) =
  if packing_expand p then S (Box.expanding ps) else Box.expanding ps.
Proof. unfold Box.expanding. simpl. destruct (packing_expand p); reflexivity. Qed.

Lemma expanding_app (ps qs : list packing) :
  Box.expanding (ps ++ qs) = (Box.expanding ps + Box.expanding qs)%nat.
Proof.
  unfold Box.expanding. rewrite List.filter_app, List.length_app. reflexivity.
Qed.

(** One step of either loop, then the induction hypothesis on the rest. *)
Ltac walk_step IH Hr Hs o ec it p :=
  apply andb_true_iff in Hs as [Hp Hs];
  destruct (child_length_of_spec o ec it p Hr Hp)
    as (len & it1 & Hc & Hr1 & Hk & Hb & Ho1);
  rewrite Hc;
  let items := fresh "items" in
  let it' := fresh "it'" in
  let Hw := fresh "Hw" in
  let Hi := fresh "Hi" in
  let Hr' := fresh "Hr'" in
  let Hf := fresh "Hf" in
  let Hbs := fresh "Hbs" in
  let Ho := fresh "Ho" in
  edestruct (IH it1) as (items & it' & Hw & Hi & Hr' & Hf & Hbs & Ho);
    [exact Hr1 | exact Hs | ];
  rewrite Hw; eexists (_ :: items), it';
  split; [reflexivity|];
  split; [simpl; f_equal; exact Hi|];
  split; [exact Hr'|];
  split; [constructor; [apply Hk | assumption]|];
  rewrite expanding_cons;
  unfold Box.bonuses in *; cbn [omap list_omap];
  pose proof (ready_owed_nonneg ec it Hr);
  rewrite Hb, Hbs, Ho, Ho1;
  destruct (packing_expand p); cbn [fst snd Box.spread];
    (split; [reflexivity | f_equal; lia]).

Lemma position_leading_spec (o : Box.orientation) (sp ec : Z)
    (ps : list packing) :
  forall (it : Box.extra_space_iter) (pos : Z),
    Box.ready ec it ->
    forallb Box.packing_sized ps = true ->
    exists items it',
      Box.position_leading o sp ec it pos ps = (items, Ok it') /\
      items.*1.*1 = ps /\
      Box.ready ec it' /\
      Forall (Box.keeps_minimum o) items /\
      Box.bonuses o items =
        Box.spread (Box.expanding ps) (Box.owed ec it).1 (Box.owed ec it).2 /\
      Box.owed ec it' =
        (Z.max 0 ((Box.owed ec it).1 - Z.of_nat (Box.expanding ps)),
         (Box.owed ec it).2).
Proof.
  induction ps as [|p ps IH]; intros it pos Hr Hs.
  - exists [], it. repeat split; auto.
    pose proof (ready_owed_nonneg ec it Hr).
    destruct (Box.owed ec it) as [r avg]. cbn in *. f_equal. lia.
  - cbn [Box.position_leading]. walk_step IH Hr Hs o ec it p.
Qed.

Lemma position_trailing_spec (o : Box.orientation) (sp ec : Z)
    (ps : list packing) :
  forall (it : Box.extra_space_iter) (pos : Z),
    Box.ready ec it ->
    forallb Box.packing_sized ps = true ->
    exists items it',
      Box.position_trailing o sp ec it pos ps = (items, Ok it') /\
      items.*1.*1 = ps /\
      Box.ready ec it' /\
      Forall (Box.keeps_minimum o) items /\
      Box.bonuses o items =
        Box.spread (Box.expanding ps) (Box.owed ec it).1 (Box.owed ec it).2 /\
      Box.owed ec it' =
        (Z.max 0 ((Box.owed ec it).1 - Z.of_nat (Box.expanding ps)),
         (Box.owed ec it).2).
Proof.
  induction ps as [|p ps IH]; intros it pos Hr Hs.
  - exists [], it. repeat split; auto.
    pose proof (ready_owed_nonneg ec it Hr).
    destruct (Box.owed ec it) as [r avg]. cbn in *. f_equal. lia.
  - cbn [Box.position_trailing]. walk_step IH Hr Hs o ec it p.
Qed.

Lemma calc_size_loop_sized (o : Box.orientation) (ps : list packing) :
  forall length breadth,
    forallb Box.packing_sized ps = true ->
    exists s, Box.calc_size_loop o ps length breadth = Ok s.
Proof.
  induction ps as [|p ps IH]; intros l b Hs; simpl.
  - eauto.
  - apply andb_true_iff in Hs as [Hp Hs].
    destruct (packing_sized_calc_size o p Hp) as (cl & cb & ->). simpl.
    apply IH, Hs.
Qed.

Lemma well_formed_get_size (self : Box.t) :
  Box.well_formed self = true ->
  exists minimum self',
    get_size self = (Ok minimum, self') /\
    Box.kind self' = Box.kind self /\
    Box.spacing self' = Box.spacing self /\
    Box.children self' = Box.children self /\
    Box.children_end self' = Box.children_end self /\
    Box.expand_count self' = Box.expand_count self.
Proof.
  intros [_ Hs]%andb_true_iff. unfold get_size. simpl.
  destruct (Box.size_memo self) as [s|].
  - exists s, self. repeat split.
  - unfold Box.calc_size.
    destruct (calc_size_loop_sized (Box.kind self) _ 0 0 Hs) as ([l b] & ->).
    simpl. eexists _, _. split; [reflexivity|]. repeat split.
Qed.

Lemma bonuses_app (o : Box.orientation) (l1 l2 : list Box.position) :
  Box.bonuses o (l1 ++ l2) = Box.bonuses o l1 ++ Box.bonuses o l2.
Proof. apply omap_app. Qed.


(** Boxes built by the constructor and the pack methods are well formed,
    and [get_size] keeps them so. *)
Lemma well_formed_init (o : Box.orientation) (spacing : Z) :
  Box.well_formed (Box.__init__ o spacing) = true.
Proof. reflexivity. Qed.

Lemma expanding_single (p : packing) :
  Z.of_nat (Box.expanding [p]) = if packing_expand p then 1 else 0.
Proof. rewrite expanding_cons. destruct (packing_expand p); reflexivity. Qed.

Ltac well_formed_after_pack :=
  unfold Box.well_formed, Box.count_expand; cbn [Box.children Box.children_end
    Box.expand_count];
  intros [Hc%bool_decide_eq_true Hs]%andb_true_iff Hp;
  rewrite forallb_app in Hs; apply andb_true_iff in Hs as [Hs1 Hs2];
  rewrite expanding_app in Hc;
  apply andb_true_iff; split;
  [ apply bool_decide_eq_true;
    rewrite !expanding_app, !Nat2Z.inj_add, expanding_single;
    match goal with |- context [packing_expand ?p] =>
      destruct (packing_expand p) eqn:?; simpl in *
    end;
    repeat match goal with H : _ = true |- _ => rewrite H end;
    repeat match goal with H : _ = false |- _ => rewrite H end;
    lia
  | rewrite !forallb_app; cbn [forallb];
    rewrite Hs1, Hs2, Hp; reflexivity ].

Lemma well_formed_pack_front (self : Box.t) (p : packing) :
  Box.well_formed self = true ->
  Box.packing_sized p = true ->
  Box.well_formed
    {| Box.kind := Box.kind self;
       Box.spacing := Box.spacing self;
       Box.children := Box.children self ++ [p];
       Box.children_end := Box.children_end self;
       Box.expand_count := Box.count_expand self (packing_expand p);
       Box.size_memo := Box.size_memo self |} = true.
Proof. well_formed_after_pack. Qed.

Lemma well_formed_pack_back (self : Box.t) (p : packing) :
  Box.well_formed self = true ->
  Box.packing_sized p = true ->
  Box.well_formed
    {| Box.kind := Box.kind self;
       Box.spacing := Box.spacing self;
       Box.children := Box.children self;
       Box.children_end := Box.children_end self ++ [p];
       Box.expand_count := Box.count_expand self (packing_expand p);
       Box.size_memo := Box.size_memo self |} = true.
Proof. well_formed_after_pack. Qed.

Lemma well_formed_pack (self self' : Box.t) (child : obj) (expand : bool) :
  Box.well_formed self = true ->
  Box.pack self child expand = Ok self' ->
  Box.well_formed self' = true.
Proof.
  unfold Box.pack. intros Hwf.
  destruct (Box.can_be_drawn child) eqn:Hd; simpl; [|discriminate].
  intros [= <-].
  apply (well_formed_pack_front self (Packing child expand) Hwf Hd).
Qed.

Lemma well_formed_pack_end (self self' : Box.t) (child : obj) (expand : bool) :
  Box.well_formed self = true ->
  Box.pack_end self child expand = Ok self' ->
  Box.well_formed self' = true.
Proof.
  unfold Box.pack_end. intros Hwf.
  destruct (Box.can_be_drawn child) eqn:Hd; simpl; [|discriminate].
  intros [= <-].
  apply (well_formed_pack_back self (Packing child expand) Hwf Hd).
Qed.

Lemma well_formed_pack_space (self : Box.t) (size : Z) (expand : bool) :
  Box.well_formed self = true ->
  Box.well_formed (Box.pack_space self size expand) = true.
Proof.
  intros Hwf.
  apply (well_formed_pack_front self (WhitespacePacking size expand) Hwf eq_refl).
Qed.

Lemma well_formed_pack_space_end (self : Box.t) (size : Z) (expand : bool) :
  Box.well_formed self = true ->
  Box.well_formed (Box.pack_space_end self size expand) = true.
Proof.
  intros Hwf.
  apply (well_formed_pack_back self (WhitespacePacking size expand) Hwf eq_refl).
Qed.

Lemma well_formed_after_get_size (self : Box.t) :
  Box.well_formed self = true ->
  Box.well_formed (get_size self).2 = true.
Proof.
  intros Hwf.
  destruct (well_formed_get_size self Hwf)
    as (m & self' & Hg & _ & _ & Hch & Hce & Hec).
  rewrite Hg. simpl. unfold Box.well_formed in *.
  rewrite Hch, Hce, Hec. exact Hwf.
Qed.

Lemma built_well_formed (self : Box.t) :
  Box.built self -> Box.well_formed self = true.
Proof.
  induction 1 as [o sp|self self' child expand _ IH Hp
                 |self self' child expand _ IH Hp
                 |self size expand _ IH|self size expand _ IH|self _ IH].
  - apply well_formed_init.
  - exact (well_formed_pack self self' child expand IH Hp).
  - exact (well_formed_pack_end self self' child expand IH Hp).
  - apply well_formed_pack_space, IH.
  - apply well_formed_pack_space_end, IH.
  - apply well_formed_after_get_size, IH.
Qed.


Example expanding_box_bonuses :
  (b ← Scenario.expanding_box;
   mret (Box.bonuses Box.HBox (Box.yielded (Box._position_children b 100).1)))
  = Ok [19; 19; 18].
Proof. reflexivity. Qed.

(** ** Hit-testing in a box *)

(** Where the loop of [_find_child_at] does find the child under the
    point: when every item yielded before it starts at or before the point
    and does not contain it. *)
Lemma find_child_loop_first (o : Box.orientation) (pos total_breadth : Z)
    (before after : list Box.position) (ending : option exn)
    (child : obj) (expand : bool) (child_pos child_length : Z) :
  Forall (fun item : Box.position =>
            item.1.2 <= pos /\ ~ (pos < item.1.2 + item.2)) before ->
  child_pos <= pos < child_pos + child_length ->
  Box.find_child_loop o pos total_breadth
    (before ++ (Packing child expand, child_pos, child_length) :: after) ending =
  Ok (Some (child,
            (Box._translate o child_pos 0).1,
            (Box._translate o child_pos 0).2,
            (Box._translate o child_length total_breadth).1,
            (Box._translate o child_length total_breadth).2)).
Proof.
  intros Hbefore Hin. induction Hbefore as [|[[p cp] cl] before [Hle Hnot] _ IH];
    simpl in *.
  - destruct (Z.leb_spec child_pos pos), (Z.ltb_spec pos (child_pos + child_length));
      try lia. simpl.
    destruct (Box._translate o child_pos 0),
             (Box._translate o child_length total_breadth). reflexivity.
  - destruct (Z.leb_spec cp pos), (Z.ltb_spec pos (cp + cl)); try lia. simpl.
    destruct (Z.ltb_spec pos cp); [lia|]. exact IH.
Qed.

(** The loop stops for good at the first item that starts after the point:
    whatever the generator would yield later is never looked at. *)
Lemma find_child_loop_break (o : Box.orientation) (pos total_breadth : Z)
    (before after : list Box.position) (ending : option exn)
    (p : packing) (child_pos child_length : Z) :
  Forall (fun item : Box.position =>
            item.1.2 <= pos /\ ~ (pos < item.1.2 + item.2)) before ->
  pos < child_pos ->
  Box.find_child_loop o pos total_breadth
    (before ++ (p, child_pos, child_length) :: after) ending = Ok None.
Proof.
  intros Hbefore Hgt. induction Hbefore as [|[[q cp] cl] before [Hle Hnot] _ IH];
    simpl in *.
  - destruct (Z.leb_spec child_pos pos); [lia|]. simpl.
    destruct (Z.ltb_spec pos child_pos); [reflexivity|lia].
  - destruct (Z.leb_spec cp pos), (Z.ltb_spec pos (cp + cl)); try lia. simpl.
    destruct (Z.ltb_spec pos cp); [lia|]. exact IH.
Qed.

(** C2: with two children packed at the end of an HBox of width 100, the
    position generator gives the second one the span 80..90, yet
    [_find_child_at] at x = 85 reports nothing: the loop breaks at the
    first trailing child, which starts at 90, after the point. *)
Theorem Box_find_child_at_misses_trailing_child :
  exists b,
    Scenario.two_trailing = Ok b /\
    Box.yielded (Box._position_children b 100).1 =
      [(Packing Scenario.first_trailing false, 90, 10);
       (Packing Scenario.second_trailing false, 80, 10)] /\
    Box.ending (Box._position_children b 100).1 = None /\
    (Box._find_child_at b 85 0 100 12).1 = Ok None /\
    (Box._find_child_at b 95 0 100 12).1 =
      Ok (Some (Scenario.first_trailing, 90, 0, 10, 12)).
Proof.
  eexists. split; [reflexivity|]. repeat split.
Qed.

(** ** Hit-testing in a table *)

Lemma find_child_in_row_empty_cell (x y : Z) (col_sizes : gmap nat Z)
    (col_spacing row_distance : Z) (col_count : nat) (col_distance : Z)
    (rest : list (option packing)) :
  Table.find_child_in_row x y col_sizes col_spacing row_distance col_count
    col_distance (None :: rest) = Raise AttributeError.
Proof. reflexivity. Qed.

(** C3: in a 1x2 table whose only packed cell is (0, 1), [_find_child_at]
    raises [AttributeError] at every point, also at points of the packed
    child: the scan calls [calc_size] on the empty cell (0, 0) first. *)
Theorem Table_find_child_at_raises_on_empty_cell :
  exists t,
    Scenario.sparse_table = Ok t /\
    Table.table_multiarray t = [[None; Some (Packing (leaf 10 10) false)]] /\
    forall x y width height,
      Table._find_child_at t x y width height = Raise AttributeError.
Proof.
  eexists. split; [reflexivity|]. split; [reflexivity|].
  intros x y width height. reflexivity.
Qed.

(** ** Hit-testing in a stack *)

Lemma Stack_find_child_at_top (s : Stack.t) (top : obj) (x y width height : Z) :
  last (Stack.children s) = Some top ->
  Stack._find_child_at s x y width height =
  call_find_child_at top x y width height.
Proof. unfold Stack._find_child_at. intros ->. reflexivity. Qed.

(** When the topmost packer has the [find_hotspot] it inherits from
    [Packer], the stack answers what that packer answers. *)
Lemma Stack_find_hotspot_inherited (s : Stack.t) (top : obj)
    (f : Z -> Z -> Z -> Z -> result (option child_pos))
    (g : Z -> Z -> Z -> Z -> result (option hotspot_info))
    (x y width height : Z) :
  last (Stack.children s) = Some top ->
  obj_find_child_at top = Some f ->
  obj_find_hotspot top = Some g ->
  g = Packer_find_hotspot f ->
  Stack.find_hotspot s x y width height = g x y width height.
Proof.
  intros Hlast Hf _ ->.
  unfold Stack.find_hotspot, Packer_find_hotspot.
  rewrite (Stack_find_child_at_top s top) by exact Hlast.
  unfold call_find_child_at. rewrite Hf. reflexivity.
Qed.

(** A [Hotspot] packed straight into a stack is asked for its
    [_find_child_at], which it does not implement. *)
Example Stack_with_hotspot_on_top :
  Stack.find_hotspot
    (Stack.pack Stack.__init__ (Hotspot.as_obj "name" (leaf 10 10))) 3 4 10 10
  = Raise NotImplementedError.
Proof. reflexivity. Qed.

(** C4: a [Hotspot] is a packer, and three of them on a stack are sized
    without error and would each answer its own name at every point.  The
    stack does not ask the third for its answer: it asks for its
    [_find_child_at], which a [Hotspot] inherits from [Packer] unimplemented,
    and so [find_hotspot] raises [NotImplementedError] at every point; the
    same holds of every stack with a [Hotspot] on top. *)
Theorem Stack_find_hotspot_raises_over_hotspot :
  let third := Hotspot.as_obj "third" (leaf 10 10) in
  last (Stack.children Scenario.three_hotspots) = Some third /\
  get_current_size Scenario.three_hotspots = Ok (10, 10) /\
  (exists g, obj_find_hotspot third = Some g /\
     forall x y width height : Z,
       g x y width height =
         Ok (Some ("third"%string, x, y, width, height))) /\
  (forall x y width height : Z,
     Stack.find_hotspot Scenario.three_hotspots x y width height =
       Raise NotImplementedError) /\
  (forall (s : Stack.t) (name : string) (child : obj) (x y width height : Z),
     last (Stack.children s) = Some (Hotspot.as_obj name child) ->
     Stack.find_hotspot s x y width height = Raise NotImplementedError).
Proof.
  split; [reflexivity|]. split; [reflexivity|].
  split; [eexists; split; [reflexivity|]; intros; reflexivity|].
  split; [intros; reflexivity|].
  intros s name child x y width height Hlast.
  unfold Stack.find_hotspot, Packer_find_hotspot.
  rewrite (Stack_find_child_at_top s _ x y width height Hlast). reflexivity.
Qed.

(** X27: hit-testing in a stack goes through the topmost entry alone.  On a
    stack whose last entry is [top], [find_hotspot] is [Packer.find_hotspot]
    run on the [_find_child_at] of [top], so it equals the answer of the
    stack that holds only [top], whatever lies below, also after
    [pack_below]; on an empty stack it reports no hit.  When [top] has the
    [find_hotspot] it inherits from [Packer], the stack answers what [top]
    itself answers; when [top] has no [_find_child_at], the stack raises
    [AttributeError]. *)
Theorem Stack_find_hotspot_topmost_only (s : Stack.t) (top : obj)
    (x y width height : Z) :
  last (Stack.children s) = Some top ->
  Stack.find_hotspot s x y width height =
    Packer_find_hotspot (call_find_child_at top) x y width height /\
  Stack.find_hotspot s x y width height =
    Stack.find_hotspot (Stack.pack Stack.__init__ top) x y width height /\
  Stack.find_hotspot Stack.__init__ x y width height = Ok None /\
  (forall p1 p2 p3 : obj,
     Stack.find_hotspot
       (Stack.pack (Stack.pack (Stack.pack Stack.__init__ p1) p2) p3)
       x y width height =
     Stack.find_hotspot (Stack.pack Stack.__init__ p3) x y width height) /\
  (forall below : obj,
     Stack.find_hotspot (Stack.pack_below s below) x y width height =
     Stack.find_hotspot s x y width height) /\
  (forall (f : Z -> Z -> Z -> Z -> result (option child_pos))
          (g : Z -> Z -> Z -> Z -> result (option hotspot_info)),
     obj_find_child_at top = Some f ->
     obj_find_hotspot top = Some g ->
     g = Packer_find_hotspot f ->
     Stack.find_hotspot s x y width height = g x y width height) /\
  (obj_find_child_at top = None ->
   Stack.find_hotspot s x y width height = Raise AttributeError).
Proof.
  intros Hlast.
  assert (Hstack : forall s', last (Stack.children s') = Some top ->
            Stack.find_hotspot s' x y width height =
            Packer_find_hotspot (call_find_child_at top) x y width height).
  { intros s' Hs'. unfold Stack.find_hotspot, Packer_find_hotspot.
    rewrite (Stack_find_child_at_top s' top) by exact Hs'. reflexivity. }
  split; [apply Hstack, Hlast|].
  split; [rewrite !Hstack; [reflexivity|reflexivity|exact Hlast]|].
  split; [reflexivity|].
  split; [intros p1 p2 p3; reflexivity|].
  split.
  { intros below. rewrite !Hstack; [reflexivity|exact Hlast|].
    simpl. destruct (Stack.children s) as [|c cs]; [discriminate|].
    exact Hlast. }
  split.
  - intros f g Hf Hg Heq.
    apply (Stack_find_hotspot_inherited s top f g x y width height
             Hlast Hf Hg Heq).
  - intros Hnone. rewrite (Hstack s Hlast).
    unfold Packer_find_hotspot, call_find_child_at. rewrite Hnone. reflexivity.
Qed.

(** Three padded hotspots stacked, [Scenario.three_stacked]: each is a
    [Padding], which inherits [find_hotspot]; the point (3, 4) of a 10x10
    cell is answered by the third, as the third itself answers it. *)
Lemma Stack_find_hotspot_topmost_only_witness :
  last (Stack.children Scenario.three_stacked) = Some (Scenario.named "third") /\
  Stack.find_hotspot Scenario.three_stacked 3 4 10 10 =
    Ok (Some ("third"%string, 3, 4, 10, 10)) /\
  Padding.find_hotspot
    (Padding.__init__ (Hotspot.as_obj "third" (leaf 10 10)) 0 0 0 0) 3 4 10 10 =
    Ok (Some ("third"%string, 3, 4, 10, 10)).
Proof.
  split; [reflexivity|].
  pose proof (Stack_find_hotspot_topmost_only Scenario.three_stacked
                (Scenario.named "third") 3 4 10 10 eq_refl)
    as (_ & _ & _ & _ & _ & Hsame & _).
  rewrite (Hsame _ _ eq_refl eq_refl eq_refl).
  split; reflexivity.
Defined.

(** A box on top of a stack: the point (12, 3) falls on the hotspot that
    the box places at 10..30, whatever lies below. *)
Example Stack_over_box :
  Stack.find_hotspot
    (Stack.pack (Stack.pack Stack.__init__ (Scenario.named "below"))
                (Box.as_obj Scenario.box_with_hotspot)) 12 3 30 10
  = Ok (Some ("right"%string, 2, 3, 20, 10)).
Proof. reflexivity. Qed.

(** ** Hit-testing in a layout *)

Lemma find_hotspot_loop_miss (h : Layout.heap) (rects : list Layout.element)
    (x y : Z) :
  Layout.find_hotspot_loop h rects x y = None <->
  Forall (fun e => Layout.hit h x y e = false) rects.
Proof.
  induction rects as [|[[r df] [tag|]] rects IH]; simpl.
  - split; [constructor|reflexivity].
  - destruct (LayoutRect.is_point_inside (h !!! r) x y) eqn:Hin.
    + split; [discriminate|]. intros Hall. inversion Hall as [|? ? Hhit _].
      unfold Layout.hit in Hhit. simpl in Hhit. rewrite Hin in Hhit.
      discriminate.
    + rewrite IH. split.
      * intros Hall. constructor; [|exact Hall].
        unfold Layout.hit. simpl. rewrite Hin. reflexivity.
      * intros Hall. inversion Hall. assumption.
  - rewrite IH. split.
    + intros Hall. constructor; [reflexivity|exact Hall].
    + intros Hall. inversion Hall. assumption.
Qed.

(** C5: [find_hotspot] answers with the tag of the first element, in
    insertion order, that carries a tag and whose rect holds the point,
    together with the point relative to that rect's top-left corner; every
    element before it is either untagged or away from the point, untagged
    elements never answer, and the answer is [None] exactly when no tagged
    rect holds the point. *)
Theorem Layout_find_hotspot_first_tagged (h : Layout.heap) (self : Layout.t)
    (x y : Z) :
  match Layout.find_hotspot h self x y with
  | Some (tag, rel_x, rel_y) =>
      exists (i : nat) (rect : Layout.ref) (drawing_function : option string),
        Layout._rects self !! i = Some (rect, drawing_function, Some tag) /\
        LayoutRect.is_point_inside (h !!! rect) x y = true /\
        rel_x = x - LayoutRect.x (h !!! rect) /\
        rel_y = y - LayoutRect.y (h !!! rect) /\
        forall (j : nat) (e : Layout.element),
          (j < i)%nat -> Layout._rects self !! j = Some e ->
          Layout.hit h x y e = false
  | None =>
      forall e : Layout.element,
        e ∈ Layout._rects self -> Layout.hit h x y e = false
  end.
Proof.
  unfold Layout.find_hotspot.
  induction (Layout._rects self) as [|[[r df] hotspot] rects IH].
  - simpl. intros e He. inversion He.
  - assert (Hskip :
      Layout.hit h x y (r, df, hotspot) = false ->
      match Layout.find_hotspot_loop h rects x y with
      | Some (tag, rel_x, rel_y) =>
          exists i rect drawing_function,
            ((r, df, hotspot) :: rects) !! i =
              Some (rect, drawing_function, Some tag) /\
            LayoutRect.is_point_inside (h !!! rect) x y = true /\
            rel_x = x - LayoutRect.x (h !!! rect) /\
            rel_y = y - LayoutRect.y (h !!! rect) /\
            forall j e, (j < i)%nat ->
              ((r, df, hotspot) :: rects) !! j = Some e ->
              Layout.hit h x y e = false
      | None =>
          forall e, e ∈ (r, df, hotspot) :: rects -> Layout.hit h x y e = false
      end).
    { intros Hmiss.
      destruct (Layout.find_hotspot_loop h rects x y) as [[[tag rx] ry]|].
      - destruct IH as (i & rect & f & Hi & Hin & Hx & Hy & Hbefore).
        exists (S i), rect, f. repeat split; try assumption.
        intros [|j] e Hj He; simpl in He.
        + injection He as <-. exact Hmiss.
        + apply (Hbefore j); [lia|exact He].
      - intros e [->|He]%elem_of_cons; [exact Hmiss|]. apply IH, He. }
    simpl. destruct hotspot as [tag|].
    + destruct (LayoutRect.is_point_inside (h !!! r) x y) eqn:Hin.
      * exists O, r, df. repeat split; try assumption. intros j e Hj. lia.
      * apply Hskip. unfold Layout.hit. simpl. rewrite Hin. reflexivity.
    + apply Hskip. reflexivity.
Qed.

Example covered_layout_hotspot :
  let '(h, l) := Scenario.covered_layout in
  Layout.find_hotspot h l 3 4 = Some ("low"%string, 3, 4).
Proof. reflexivity. Qed.

(** ** Updating the rects of a layout in place *)

Lemma occurrences_cons (r : Layout.ref) (e : Layout.element)
    (rects : list Layout.element) :
  Layout.occurrences r (e :: rects) =
  if decide (e.1.1 = r) then S (Layout.occurrences r rects)
  else Layout.occurrences r rects.
Proof.
  unfold Layout.occurrences. simpl.
  destruct (decide (e.1.1 = r)) as [Heq|Hne].
  - rewrite bool_decide_eq_true_2 by exact Heq. reflexivity.
  - rewrite bool_decide_eq_false_2 by exact Hne. reflexivity.
Qed.

(** A rect held by [n] elements is updated [n] times, one held by none is
    left alone. *)
Lemma for_each_rect_lookup (update : LayoutRect.t -> LayoutRect.t)
    (rects : list Layout.element) :
  forall (h : Layout.heap) (r : Layout.ref),
    Layout.for_each_rect update rects h !! r =
    Nat.iter (Layout.occurrences r rects) update <$> h !! r.
Proof.
  induction rects as [|[[rect df] tag] rects IH]; intros h r; simpl.
  - destruct (h !! r); reflexivity.
  - rewrite IH, occurrences_cons. simpl.
    destruct (decide (rect = r)) as [->|Hne].
    + rewrite lookup_alter_eq. destruct (h !! r) as [v|]; simpl; [|reflexivity].
      f_equal. symmetry. apply Nat.iter_succ_r.
    + rewrite lookup_alter_ne by exact Hne. reflexivity.
Qed.

Lemma for_each_rect_dom (update : LayoutRect.t -> LayoutRect.t)
    (rects : list Layout.element) (h : Layout.heap) :
  dom (Layout.for_each_rect update rects h) = dom h.
Proof.
  apply set_eq. intros r.
  rewrite !elem_of_dom, for_each_rect_lookup, fmap_is_Some. reflexivity.
Qed.

Lemma iter_move (n : nat) (dx dy : Z) (rect : LayoutRect.t) :
  Nat.iter n (Layout.move dx dy) rect =
  Layout.move (Z.of_nat n * dx) (Z.of_nat n * dy) rect.
Proof.
  induction n as [|n IH].
  - destruct rect. unfold Layout.move. simpl. f_equal; lia.
  - rewrite Nat.iter_succ, IH. unfold Layout.move. simpl. f_equal; lia.
Qed.

Lemma iter_idempotent {A} (f : A -> A) (n : nat) (a : A) :
  (forall b, f (f b) = f b) ->
  Nat.iter n f a = if decide (n = O) then a else f a.
Proof.
  intros Hf. induction n as [|n IH]; [reflexivity|].
  rewrite Nat.iter_succ, IH. destruct n; simpl; [reflexivity|apply Hf].
Qed.

Lemma occurrences_NoDup (e : Layout.element) (rects : list Layout.element) :
  NoDup (map (fun e : Layout.element => e.1.1) rects) ->
  e ∈ rects -> Layout.occurrences e.1.1 rects = 1%nat.
Proof.
  induction rects as [|e' rects IH]; intros Hnd He.
  - inversion He.
  - simpl in Hnd. apply NoDup_cons in Hnd as [Hnotin Hnd].
    rewrite occurrences_cons. apply elem_of_cons in He as [<-|He].
    + rewrite decide_True by reflexivity. f_equal.
      destruct (Layout.occurrences e.1.1 rects) eqn:Hocc; [reflexivity|].
      exfalso. apply Hnotin. clear -Hocc.
      induction rects as [|e'' rects IH]; [discriminate|].
      rewrite occurrences_cons in Hocc. simpl.
      destruct (decide (e''.1.1 = e.1.1)) as [Heq|Hne].
      * rewrite Heq. left.
      * right. apply IH, Hocc.
    + destruct (decide (e'.1.1 = e.1.1)) as [Heq|Hne]; [|apply IH; assumption].
      exfalso. apply Hnotin. rewrite Heq.
      apply (list_elem_of_fmap_2 (fun e : Layout.element => e.1.1)), He.
Qed.

(** ** translate *)

(** C10: [translate] moves each rect object once for every element of the
    layout that holds it: a rect held by n elements ends n * dx further
    right and n * dy further down, so by exactly (dx, dy) when no rect
    object is shared; rects the layout does not hold are untouched, and
    widths, heights, drawing functions, hotspot tags and the number and
    order of the elements are unchanged. *)
Theorem Layout_translate_effect (h : Layout.heap) (self : Layout.t)
    (delta_x delta_y : Z) :
  Layout.allocated h self ->
  let h' := Layout.translate h self delta_x delta_y in
  let n := fun r => Z.of_nat (Layout.occurrences r (Layout._rects self)) in
  (forall r : Layout.ref,
     h' !! r = Layout.move (n r * delta_x) (n r * delta_y) <$> h !! r) /\
  Layout.view h' self =
    map (fun e : Layout.element =>
           (Layout.move (n e.1.1 * delta_x) (n e.1.1 * delta_y) (h !!! e.1.1),
            e.1.2, e.2))
        (Layout._rects self) /\
  (NoDup (map (fun e : Layout.element => e.1.1) (Layout._rects self)) ->
   Layout.view h' self =
     map (fun v => (Layout.move delta_x delta_y v.1.1, v.1.2, v.2))
         (Layout.view h self)) /\
  (forall r : Layout.ref,
     n r = 0 -> h' !! r = h !! r) /\
  (forall r : Layout.ref,
     LayoutRect.width <$> h' !! r = LayoutRect.width <$> h !! r /\
     LayoutRect.height <$> h' !! r = LayoutRect.height <$> h !! r) /\
  dom h' = dom h.
Proof.
  intros Halloc h' n.
  assert (Hlookup : forall r,
            h' !! r = Layout.move (n r * delta_x) (n r * delta_y) <$> h !! r).
  { intros r. unfold h', Layout.translate. rewrite for_each_rect_lookup.
    destruct (h !! r) as [v|]; simpl; [|reflexivity].
    rewrite iter_move. reflexivity. }
  assert (Htotal : forall e, e ∈ Layout._rects self ->
            h' !!! e.1.1 =
            Layout.move (n e.1.1 * delta_x) (n e.1.1 * delta_y) (h !!! e.1.1)).
  { intros e He. unfold Layout.allocated in Halloc.
    rewrite Forall_forall in Halloc. destruct (Halloc e He) as [v Hv].
    rewrite !lookup_total_alt, Hlookup, Hv. reflexivity. }
  split; [exact Hlookup|].
  split.
  { unfold Layout.view. apply map_ext_in. intros e He%list_elem_of_In.
    rewrite Htotal by exact He. reflexivity. }
  split.
  { intros Hnd. unfold Layout.view. rewrite map_map. apply map_ext_in.
    intros e He%list_elem_of_In. simpl.
    rewrite Htotal by exact He. unfold n.
    rewrite (occurrences_NoDup e _ Hnd He).
    do 3 f_equal; lia. }
  split.
  { intros r Hr. rewrite Hlookup, Hr.
    destruct (h !! r) as [[]|]; simpl; [|reflexivity].
    unfold Layout.move. simpl. do 2 f_equal; lia. }
  split.
  { intros r. rewrite Hlookup. destruct (h !! r); split; reflexivity. }
  apply for_each_rect_dom.
Qed.

(** A layout built with [add] alone: two rects at (0,0) move to (5,7). *)
Lemma Layout_translate_effect_witness :
  let h := Scenario.covered_layout.1 in
  let l := Scenario.covered_layout.2 in
  Layout.allocated h l /\
  Layout.view (Layout.translate h l 5 7) l =
    [(LayoutRect.Make 5 7 10 10, None, Some "low"%string);
     (LayoutRect.Make 5 7 20 20, Some "draw"%string, None)].
Proof.
  assert (Halloc : Layout.allocated Scenario.covered_layout.1
                     Scenario.covered_layout.2).
  { repeat constructor; eexists; reflexivity. }
  intros h l. subst h l. split; [exact Halloc|].
  destruct (Layout_translate_effect _ _ 5 7 Halloc) as (_ & _ & Hview & _).
  rewrite Hview; [reflexivity|].
  apply (bool_decide_unpack _). vm_compute. exact I.
Defined.

(** The rect of [Scenario.shared_rect_layout] is held by two elements:
    translating by (5, 0) moves it, and so both elements, by 10. *)
Lemma Layout_translate_shared_rect_moves_twice :
  let h := Scenario.shared_rect.2 in
  let l := Scenario.shared_rect_layout in
  Layout.view h l =
    [(LayoutRect.Make 0 0 10 10, None, None);
     (LayoutRect.Make 0 0 10 10, None, Some "a"%string)] /\
  Layout.view (Layout.translate h l 5 0) l =
    [(LayoutRect.Make 10 0 10 10, None, None);
     (LayoutRect.Make 10 0 10 10, None, Some "a"%string)] /\
  Layout.view (Layout.translate h l 5 0) l <>
    map (fun v => (Layout.move 5 0 v.1.1, v.1.2, v.2)) (Layout.view h l).
Proof.
  split; [reflexivity|]. split; [reflexivity|]. discriminate.
Qed.

(** [merge] copies references: a layout merged twice into another shares
    each of its rects between two elements of the result. *)
Example merge_twice_then_translate :
  let h := Scenario.covered_layout.1 in
  let other := Scenario.covered_layout.2 in
  let l := Layout.merge (Layout.merge Layout.__init__ other) other in
  Layout.rect_count l = 4%nat /\
  map (fun v => LayoutRect.x v.1.1) (Layout.view (Layout.translate h l 5 0) l)
    = [10; 10; 10; 10].
Proof. split; reflexivity. Qed.

(** ** center_x and center_y *)

Lemma foldl_max_spec (rest : list Z) :
  forall z : Z,
    (foldl Z.max z rest = z \/ foldl Z.max z rest ∈ rest) /\
    z <= foldl Z.max z rest /\
    Forall (fun v => v <= foldl Z.max z rest) rest.
Proof.
  induction rest as [|v rest IH]; intros z; simpl.
  - split; [left; reflexivity|]. split; [lia|constructor].
  - destruct (IH (Z.max z v)) as (Hmem & Hle & Hall).
    split; [|split].
    + destruct Hmem as [Heq|Hin].
      * rewrite Heq. destruct (Z.max_spec z v) as [[_ ->]|[_ ->]].
        -- right. left.
        -- left. reflexivity.
      * right. right. exact Hin.
    + lia.
    + constructor; [lia|exact Hall].
Qed.

(** [max] answers with an element that no other exceeds. *)
Lemma py_max_spec (zs : list Z) (m : Z) :
  Layout.py_max zs = Ok m -> m ∈ zs /\ Forall (fun v => v <= m) zs.
Proof.
  destruct zs as [|z rest]; simpl; [discriminate|]. intros [= <-].
  destruct (foldl_max_spec rest z) as (Hmem & Hle & Hall).
  split.
  - destruct Hmem as [->|Hin]; [left|right; exact Hin].
  - constructor; assumption.
Qed.


Lemma for_each_rect_idempotent (update : LayoutRect.t -> LayoutRect.t)
    (rects : list Layout.element) (h : Layout.heap) (r : Layout.ref) :
  (forall b, update (update b) = update b) ->
  Layout.for_each_rect update rects h !! r =
  (if decide (Layout.occurrences r rects = O) then id else update) <$> h !! r.
Proof.
  intros Hidem. rewrite for_each_rect_lookup.
  destruct (h !! r) as [v|]; simpl; [|reflexivity].
  rewrite iter_idempotent by exact Hidem.
  destruct (decide (Layout.occurrences r rects = O)); reflexivity.
Qed.

Lemma set_centered_x_idempotent (lo w : Z) (b : LayoutRect.t) :
  Layout.set_centered_x lo w (Layout.set_centered_x lo w b) =
  Layout.set_centered_x lo w b.
Proof. reflexivity. Qed.

Lemma set_centered_y_idempotent (lo w : Z) (b : LayoutRect.t) :
  Layout.set_centered_y lo w (Layout.set_centered_y lo w b) =
  Layout.set_centered_y lo w b.
Proof. reflexivity. Qed.





Example center_x_covered_layout :
  let h := Scenario.covered_layout.1 in
  let l := Scenario.covered_layout.2 in
  Layout.max_width h l = Ok 20 /\
  Layout.view (Layout.center_x h l None (Some 100)).1 l =
    [(LayoutRect.Make 85 0 10 10, None, Some "low"%string);
     (LayoutRect.Make 80 0 20 20, Some "draw"%string, None)].
Proof. split; reflexivity. Qed.

(** ** What pack checks *)

Lemma list_index_raises (len : nat) (i : Z) (e : exn) :
  Table.list_index len i = Raise e -> e = IndexError.
Proof.
  unfold Table.list_index.
  destruct ((0 <=? i) && (i <? Z.of_nat len)); [discriminate|].
  destruct ((- Z.of_nat len <=? i) && (i <? 0)); [discriminate|].
  intros [= <-]. reflexivity.
Qed.

(** Python's list indexing in arithmetic: an index in [-len, len) is in
    range and counts from the end when negative; any other raises
    [IndexError]. *)
Lemma list_index_outcome (len : nat) (i : Z) :
  match Table.list_index len i with
  | Ok n =>
      - Z.of_nat len <= i < Z.of_nat len /\ (n < len)%nat /\
      Z.of_nat n = (if 0 <=? i then i else Z.of_nat len + i)
  | Raise e => e = IndexError /\ ~ (- Z.of_nat len <= i < Z.of_nat len)
  end.
Proof.
  unfold Table.list_index.
  repeat match goal with
         | |- context [?a <=? ?b] => destruct (Z.leb_spec a b)
         | |- context [?a <? ?b] => destruct (Z.ltb_spec a b)
         end; simpl; repeat split; first [reflexivity | lia].
Qed.

Lemma Table_pack_outcome (t : Table.t) (child : obj) (row column : Z)
    (expand : bool) :
  let rows := Table.table_multiarray t in
  let n := Z.of_nat (List.length rows) in
  match Table.pack t child row column expand with
  | Ok t' =>
      exists (r c : nat) (cells : list (option packing)),
        - n <= row < n /\
        Z.of_nat r = (if 0 <=? row then row else n + row) /\
        rows !! r = Some cells /\
        - Z.of_nat (List.length cells) <= column
          < Z.of_nat (List.length cells) /\
        Z.of_nat c =
          (if 0 <=? column then column
           else Z.of_nat (List.length cells) + column) /\
        Table.table_multiarray t' =
          <[r := <[c := Some (Packing child expand)]> cells]> rows /\
        Table.cell t' r c = Some (Packing child expand) /\
        (forall r' c' : nat, (r', c') <> (r, c) ->
           Table.cell t' r' c' = Table.cell t r' c')
  | Raise e =>
      e = IndexError /\
      (~ (- n <= row < n) \/
       exists (r : nat) (cells : list (option packing)),
         Z.of_nat r = (if 0 <=? row then row else n + row) /\
         rows !! r = Some cells /\
         ~ (- Z.of_nat (List.length cells) <= column
            < Z.of_nat (List.length cells)))
  end.
Proof.
  intros rows n. subst rows n. unfold Table.pack.
  pose proof (list_index_outcome (List.length (Table.table_multiarray t)) row)
    as Hrow.
  destruct (Table.list_index _ row) as [r|e]; simpl;
    [|destruct Hrow as [-> Hout]; split; [reflexivity|left; exact Hout]].
  destruct Hrow as (Hin & Hlt & Hr).
  destruct (lookup_lt_is_Some_2 _ _ Hlt) as [cells Hcells].
  rewrite Hcells. simpl.
  pose proof (list_index_outcome (List.length cells) column) as Hcol.
  destruct (Table.list_index _ column) as [c|e]; simpl.
  - destruct Hcol as (Hcin & Hclt & Hc).
    exists r, c, cells.
    split; [exact Hin|]. split; [exact Hr|]. split; [exact Hcells|].
    split; [exact Hcin|]. split; [exact Hc|]. split; [reflexivity|].
    split.
    + unfold Table.cell. simpl.
      rewrite list_lookup_insert_eq by exact Hlt. simpl.
      rewrite list_lookup_insert_eq by exact Hclt. reflexivity.
    + intros r' c' Hne. unfold Table.cell. simpl.
      destruct (decide (r' = r)) as [->|Hr'].
      * rewrite list_lookup_insert_eq by exact Hlt.
        rewrite Hcells. simpl.
        rewrite list_lookup_insert_ne by congruence. reflexivity.
      * rewrite list_lookup_insert_ne by congruence. reflexivity.
  - destruct Hcol as [-> Hout]. split; [reflexivity|].
    right. exists r, cells. split; [exact Hr|]. split; [exact Hcells|exact Hout].
Qed.

(** C7: [Box.pack] and [Box.pack_end] raise [TypeError] at pack time
    exactly when the child lacks [draw] or lacks [get_size], and otherwise
    append it.  [Table.pack] makes no test of the child: with a row and a
    column in range, counted from the end when negative, it stores the
    child, whatever it is, in that one cell and leaves the others as they
    were; otherwise it raises [IndexError], nothing else, so never
    [TypeError], and whether it raises does not depend on the child.
    [Stack.pack] and [Stack.pack_below] store any value, on top and at the
    bottom. *)
Theorem pack_capability_check (child : obj) (expand : bool) :
  (forall self : Box.t,
     (obj_has_draw child = false \/ obj_get_size child = None ->
        Box.pack self child expand = Raise TypeError /\
        Box.pack_end self child expand = Raise TypeError) /\
     (obj_has_draw child = true /\ is_Some (obj_get_size child) ->
        exists front back,
          Box.pack self child expand = Ok front /\
          Box.children front = Box.children self ++ [Packing child expand] /\
          Box.pack_end self child expand = Ok back /\
          Box.children_end back =
            Box.children_end self ++ [Packing child expand])) /\
  (forall (t : Table.t) (row column : Z),
     let rows := Table.table_multiarray t in
     let n := Z.of_nat (List.length rows) in
     match Table.pack t child row column expand with
     | Ok t' =>
         exists (r c : nat) (cells : list (option packing)),
           - n <= row < n /\
           Z.of_nat r = (if 0 <=? row then row else n + row) /\
           rows !! r = Some cells /\
           - Z.of_nat (List.length cells) <= column
             < Z.of_nat (List.length cells) /\
           Z.of_nat c =
             (if 0 <=? column then column
              else Z.of_nat (List.length cells) + column) /\
           Table.table_multiarray t' =
             <[r := <[c := Some (Packing child expand)]> cells]> rows /\
           Table.cell t' r c = Some (Packing child expand) /\
           (forall r' c' : nat, (r', c') <> (r, c) ->
              Table.cell t' r' c' = Table.cell t r' c')
     | Raise e =>
         e = IndexError /\
         (~ (- n <= row < n) \/
          exists (r : nat) (cells : list (option packing)),
            Z.of_nat r = (if 0 <=? row then row else n + row) /\
            rows !! r = Some cells /\
            ~ (- Z.of_nat (List.length cells) <= column
               < Z.of_nat (List.length cells)))
     end /\
     Table.pack t child row column expand <> Raise TypeError /\
     forall other : obj,
       raised (Table.pack t child row column expand) =
       raised (Table.pack t other row column expand)) /\
  (forall s : Stack.t,
     Stack.children (Stack.pack s child) = Stack.children s ++ [child] /\
     Stack.children (Stack.pack_below s child) = child :: Stack.children s).
Proof.
  split; [|split].
  - intros self. unfold Box.pack, Box.pack_end, Box.can_be_drawn. split.
    + intros [Hd|Hs].
      * rewrite Hd. split; reflexivity.
      * rewrite Hs, andb_comm. split; reflexivity.
    + intros [Hd Hs]. rewrite Hd, (bool_decide_eq_true_2 _ Hs). simpl.
      eexists _, _. repeat split.
  - intros t row column rows n.
    pose proof (Table_pack_outcome t child row column expand) as Hout.
    cbn zeta in Hout. fold rows in Hout. fold n in Hout.
    split; [exact Hout|]. split.
    + destruct (Table.pack t child row column expand); [discriminate|].
      destruct Hout as [-> _]. discriminate.
    + intros other. unfold Table.pack.
      destruct (Table.list_index _ row); simpl; [|reflexivity].
      destruct (Table.list_index _ column); reflexivity.
  - intros s. split; reflexivity.
Qed.

(** A value with neither [draw] nor [get_size] goes into a table cell and
    onto a stack without complaint; a box turns it away, and the table
    objects only to a column that is not there. *)
Lemma Table_and_Stack_pack_accept_any_value :
  obj_has_draw not_a_widget = false /\
  obj_get_size not_a_widget = None /\
  Box.pack (Box.__init__ Box.HBox 0) not_a_widget false = Raise TypeError /\
  (t ← Table.__init__ 1 1 0 0;
   t ← Table.pack t not_a_widget 0 0 false;
   mret (Table.table_multiarray t)) =
    Ok [[Some (Packing not_a_widget false)]] /\
  raised (t ← Table.__init__ 1 1 0 0; Table.pack t not_a_widget 0 1 false)
    = Some IndexError /\
  Stack.children (Stack.pack Stack.__init__ not_a_widget) = [not_a_widget] /\
  Stack.children (Stack.pack_below Stack.__init__ not_a_widget) = [not_a_widget].
Proof. repeat split. Qed.

(** ** The memoised size *)

#[global] Instance Box_packer_laws : PackerLaws Box.t.
Proof. split; reflexivity. Qed.

#[global] Instance Table_packer_laws : PackerLaws Table.t.
Proof. split; reflexivity. Qed.

#[global] Instance Stack_packer_laws : PackerLaws Stack.t.
Proof. split; reflexivity. Qed.




(** * Further properties of the layout code *)

(** ** Margins and the packers built on them *)

Ltac bool_cases :=
  repeat match goal with
  | |- context [?a <=? ?b] => destruct (Z.leb_spec a b)
  | |- context [?a <? ?b] => destruct (Z.ltb_spec a b)
  end; simpl; try reflexivity; try lia.

(** X1: [point_in_margin] holds exactly of the points of the rect that
    [inner_rect] cuts out of a cell placed at the origin. *)
Theorem Margin_point_in_margin_inner_rect (margin : option (Z * Z * Z * Z))
    (x y width height : Z) :
  let m := Margin.__init__ margin in
  let '(ix, iy, iw, ih) := Margin.inner_rect m 0 0 width height in
  Margin.point_in_margin m x y width height =
  LayoutRect.is_point_inside (LayoutRect.Make ix iy iw ih) x y.
Proof.
  unfold Margin.point_in_margin, LayoutRect.is_point_inside, Margin.inner_rect.
  simpl. bool_cases.
Qed.

(** X2: a padding around a hotspot answers with the hotspot's name, the
    point relative to the inner rect and the size of the inner rect when
    the point lies inside the inner rect, and with nothing when it lies in
    the padding. *)
Theorem Padding_find_hotspot_over_hotspot (name : string) (inner : obj)
    (top right_ bottom left_ x y width height : Z) :
  Padding.find_hotspot
    (Padding.__init__ (Hotspot.as_obj name inner) top right_ bottom left_)
    x y width height =
  if LayoutRect.is_point_inside
       (LayoutRect.Make left_ top (width - (right_ + left_))
                        (height - (top + bottom))) x y
  then Ok (Some (name, x - left_, y - top,
                 width - (right_ + left_), height - (top + bottom)))
  else Ok None.
Proof.
  unfold Padding.find_hotspot, Packer_find_hotspot, Padding._find_child_at,
    Margin.point_in_margin, LayoutRect.is_point_inside, Margin.inner_rect.
  simpl. bool_cases.
Qed.

(** X3: a padding laid out in exactly the size its [_calc_size] asks for
    draws its child once, inset by the left and top padding, at exactly
    the size the child asked for. *)
Theorem Padding_layout_at_minimum_size (inner : obj)
    (top right_ bottom left_ x y : Z) (size child_size : Z * Z) :
  let p := Padding.__init__ inner top right_ bottom left_ in
  obj_has_draw inner = true ->
  obj_get_size inner = Some child_size ->
  Padding.calc_size p = Ok size ->
  Padding._layout p x y size.1 size.2 =
    Ok [(inner, x + left_, y + top, child_size.1, child_size.2)].
Proof.
  intros p Hdraw Hsize. unfold Padding.calc_size, Padding._layout, call_get_size,
    call_draw. simpl. rewrite Hsize, Hdraw. simpl. intros [= <-]. simpl.
  do 3 f_equal; [f_equal|]; lia.
Qed.

Lemma Padding_layout_at_minimum_size_witness :
  Padding._layout (Padding.__init__ (leaf 10 5) 1 2 3 4) 0 0 16 9 =
    Ok [(leaf 10 5, 4, 1, 10, 5)].
Proof.
  exact (Padding_layout_at_minimum_size (leaf 10 5) 1 2 3 4 0 0 (16, 9) (10, 5)
           eq_refl eq_refl eq_refl).
Defined.

(** X4: a background laid out in exactly the size its [_calc_size] asks
    for leaves its child an inner rect that is, on each axis, the larger of
    the configured minimum and the child's own size: never less than the
    child asked for. *)
Theorem Background_inner_rect_at_minimum_size (inner : obj)
    (min_width min_height : Z) (margin : option (Z * Z * Z * Z))
    (size child_size : Z * Z) (x y : Z) :
  let b := Background.__init__ inner min_width min_height margin in
  obj_get_size inner = Some child_size ->
  Background.calc_size b = Ok size ->
  let '(_, _, iw, ih) :=
    Margin.inner_rect (Background.margin b) x y size.1 size.2 in
  iw = Z.max min_width child_size.1 /\
  ih = Z.max min_height child_size.2 /\
  child_size.1 <= iw /\ child_size.2 <= ih.
Proof.
  intros b Hsize. unfold Background.calc_size, call_get_size. simpl.
  rewrite Hsize. destruct child_size as [cw ch]. simpl. intros [= <-]. simpl.
  repeat split; lia.
Qed.

Lemma Background_inner_rect_at_minimum_size_witness :
  Background.calc_size (Background.__init__ (leaf 10 5) 30 0 (Some (1, 2, 3, 4)))
    = Ok (36, 9) /\
  (Margin.inner_rect (Margin.__init__ (Some (1, 2, 3, 4))) 0 0 36 9).1.2 = 30.
Proof.
  split; [reflexivity|].
  pose proof (Background_inner_rect_at_minimum_size (leaf 10 5) 30 0
                (Some (1, 2, 3, 4)) (36, 9) (10, 5) 0 0 eq_refl eq_refl) as H.
  simpl in H. simpl. apply H.
Defined.

(** ** Rect geometry *)

Ltac rect_cases :=
  unfold LayoutRect.is_point_inside, LayoutRect.left_side,
    LayoutRect.right_side, LayoutRect.top_side, LayoutRect.bottom_side,
    LayoutRect.past_left, LayoutRect.past_right, LayoutRect.past_top,
    LayoutRect.past_bottom, LayoutRect.subsection, LayoutRect.get_right,
    LayoutRect.get_bottom;
  cbn [LayoutRect.x LayoutRect.y LayoutRect.width LayoutRect.height];
  bool_cases.

(** X5: cutting a rect into its left side of width w and its right side
    of the remaining width loses and doubles no point: a point is in the
    rect exactly when it is in one of the two, and it is never in both.
    The same holds for the top and bottom sides. *)
Theorem LayoutRect_sides_split (self : LayoutRect.t) (w h px py : Z) :
  0 <= w <= LayoutRect.width self ->
  0 <= h <= LayoutRect.height self ->
  (LayoutRect.is_point_inside self px py =
     LayoutRect.is_point_inside (LayoutRect.left_side self w) px py
     || LayoutRect.is_point_inside
          (LayoutRect.right_side self (LayoutRect.width self - w)) px py) /\
  (LayoutRect.is_point_inside (LayoutRect.left_side self w) px py
     && LayoutRect.is_point_inside
          (LayoutRect.right_side self (LayoutRect.width self - w)) px py
   = false) /\
  (LayoutRect.is_point_inside self px py =
     LayoutRect.is_point_inside (LayoutRect.top_side self h) px py
     || LayoutRect.is_point_inside
          (LayoutRect.bottom_side self (LayoutRect.height self - h)) px py) /\
  (LayoutRect.is_point_inside (LayoutRect.top_side self h) px py
     && LayoutRect.is_point_inside
          (LayoutRect.bottom_side self (LayoutRect.height self - h)) px py
   = false).
Proof.
  intros Hw Hh. repeat split; rect_cases.
Qed.

Lemma LayoutRect_sides_split_witness :
  LayoutRect.is_point_inside (LayoutRect.Make 0 0 10 10) 7 3 =
    LayoutRect.is_point_inside
      (LayoutRect.left_side (LayoutRect.Make 0 0 10 10) 4) 7 3
    || LayoutRect.is_point_inside
         (LayoutRect.right_side (LayoutRect.Make 0 0 10 10) (10 - 4)) 7 3.
Proof.
  apply (LayoutRect_sides_split (LayoutRect.Make 0 0 10 10) 4 4 7 3);
    simpl; lia.
Defined.

(** X6: the rects made by [past_right], [past_left], [past_top] and
    [past_bottom] touch the rect they are made from along the named edge
    and share no point with it, whatever their size. *)
Theorem LayoutRect_past_is_adjacent (self : LayoutRect.t) (size px py : Z) :
  (LayoutRect.x (LayoutRect.past_right self size) = LayoutRect.get_right self /\
   LayoutRect.get_right (LayoutRect.past_left self size) = LayoutRect.x self /\
   LayoutRect.get_bottom (LayoutRect.past_top self size) = LayoutRect.y self /\
   LayoutRect.y (LayoutRect.past_bottom self size) = LayoutRect.get_bottom self) /\
  (LayoutRect.is_point_inside self px py
     && LayoutRect.is_point_inside (LayoutRect.past_right self size) px py
   = false) /\
  (LayoutRect.is_point_inside self px py
     && LayoutRect.is_point_inside (LayoutRect.past_left self size) px py
   = false) /\
  (LayoutRect.is_point_inside self px py
     && LayoutRect.is_point_inside (LayoutRect.past_top self size) px py
   = false) /\
  (LayoutRect.is_point_inside self px py
     && LayoutRect.is_point_inside (LayoutRect.past_bottom self size) px py
   = false).
Proof.
  split.
  - unfold LayoutRect.past_right, LayoutRect.past_left, LayoutRect.past_top,
      LayoutRect.past_bottom, LayoutRect.get_right, LayoutRect.get_bottom.
    simpl. repeat split; lia.
  - repeat split; rect_cases.
Qed.


(** X8: [subsection] with the four insets of a margin is the rect that
    [Margin.inner_rect] computes, whatever the insets; and with insets that
    are not negative every point of the subsection is a point of the
    rect. *)
Theorem LayoutRect_subsection_is_inner_rect (self : LayoutRect.t)
    (top right_ bottom left_ : Z) :
  let sub := LayoutRect.subsection self left_ right_ top bottom in
  Margin.inner_rect (Margin.__init__ (Some (top, right_, bottom, left_)))
    (LayoutRect.x self) (LayoutRect.y self)
    (LayoutRect.width self) (LayoutRect.height self) =
  (LayoutRect.x sub, LayoutRect.y sub,
   LayoutRect.width sub, LayoutRect.height sub) /\
  (0 <= top -> 0 <= right_ -> 0 <= bottom -> 0 <= left_ ->
   forall px py : Z,
     LayoutRect.is_point_inside sub px py = true ->
     LayoutRect.is_point_inside self px py = true).
Proof.
  split.
  - unfold Margin.inner_rect, LayoutRect.subsection. simpl.
    rewrite !pair_equal_spec. repeat split; lia.
  - intros Ht Hr Hb Hl px py.
    rect_cases; intros Hin; first [reflexivity | discriminate Hin | lia].
Qed.

Lemma LayoutRect_subsection_is_inner_rect_witness :
  Margin.inner_rect (Margin.__init__ (Some (1, 2, 3, 4))) 0 0 20 10 =
    (4, 1, 14, 6) /\
  Margin.inner_rect (Margin.__init__ (Some (-1, -2, -3, -4))) 0 0 20 10 =
    (-4, -1, 26, 14) /\
  LayoutRect.is_point_inside (LayoutRect.Make 0 0 20 10) 5 2 = true.
Proof.
  split; [|split].
  - apply (LayoutRect_subsection_is_inner_rect (LayoutRect.Make 0 0 20 10)
             1 2 3 4).
  - apply (LayoutRect_subsection_is_inner_rect (LayoutRect.Make 0 0 20 10)
             (-1) (-2) (-3) (-4)).
  - apply (proj2 (LayoutRect_subsection_is_inner_rect
                    (LayoutRect.Make 0 0 20 10) 1 2 3 4));
      first [lia | reflexivity].
Defined.

(** ** Building and combining layouts *)

(** X9: [add] makes a rect object of its own, in any layout, also one in
    which rects are shared: the new element holds a rect that no older
    element holds, with the given position and size; the rects already in
    the heap keep their values, the view of the layout grows by the new
    element at its end, [last_rect] is the new rect and the count grows by
    one; and a layout in which no rect is shared stays so. *)
Theorem Layout_add_fresh_rect (h : Layout.heap) (self : Layout.t)
    (x y width height : Z) (drawing_function hotspot : option string) :
  Layout.allocated h self ->
  let out := Layout.add h self x y width height drawing_function hotspot in
  let r := out.1 in
  let h' := out.2.1 in
  let self' := out.2.2 in
  h !! r = None /\
  Forall (fun e : Layout.element => e.1.1 <> r) (Layout._rects self) /\
  Layout.occurrences r (Layout._rects self') = 1%nat /\
  h' !! r = Some (LayoutRect.Make x y width height) /\
  (forall r', r' <> r -> h' !! r' = h !! r') /\
  Layout.view h' self' =
    Layout.view h self ++
      [(LayoutRect.Make x y width height, drawing_function, hotspot)] /\
  Layout.last_rect self' = Some r /\
  Layout.rect_count self' = S (Layout.rect_count self) /\
  Layout.allocated h' self' /\
  (Layout.unshared self -> Layout.unshared self').
Proof.
  intros Halloc. unfold Layout.add, Layout.new_rect, Layout.add_rect.
  cbn [fst snd]. set (r := fresh (dom h)).
  assert (Hfresh : h !! r = None).
  { apply not_elem_of_dom. apply is_fresh. }
  assert (Hold : forall e, e ∈ Layout._rects self -> e.1.1 <> r).
  { intros e He Heq. unfold Layout.allocated in Halloc.
    rewrite Forall_forall in Halloc. destruct (Halloc e He) as [v Hv].
    rewrite Heq, Hfresh in Hv. discriminate. }
  split; [exact Hfresh|].
  split; [apply Forall_forall; exact Hold|].
  split.
  { unfold Layout.occurrences. cbn [Layout._rects].
    rewrite List.filter_app, List.length_app. cbn [List.filter fst].
    rewrite bool_decide_eq_true_2 by reflexivity. cbn [List.length].
    assert (Hnone : List.filter
              (fun e : Layout.element => bool_decide (e.1.1 = r))
              (Layout._rects self) = []).
    { induction (Layout._rects self) as [|e es IH]; [reflexivity|].
      cbn [List.filter].
      rewrite bool_decide_eq_false_2 by (apply Hold; left).
      apply IH. intros e' He'. apply Hold. right. exact He'. }
    rewrite Hnone. reflexivity. }
  split; [apply lookup_insert_eq|].
  split; [intros r' Hne; apply lookup_insert_ne; congruence|].
  split.
  { unfold Layout.view. cbn [Layout._rects]. rewrite map_app. cbn [map fst snd].
    rewrite lookup_total_insert_eq. f_equal.
    apply map_ext_in. intros e He%list_elem_of_In.
    rewrite lookup_total_insert_ne; [reflexivity|].
    intros Heq. apply (Hold e He). congruence. }
  split; [reflexivity|].
  split; [unfold Layout.rect_count; cbn [Layout._rects];
          rewrite List.length_app; simpl; lia|].
  split.
  { unfold Layout.allocated. cbn [Layout._rects]. apply Forall_app. split.
    - unfold Layout.allocated in Halloc. rewrite Forall_forall in Halloc.
      apply Forall_forall. intros e He. destruct (Halloc e He) as [v Hv].
      exists v. rewrite lookup_insert_ne; [exact Hv|].
      intros Heq. apply (Hold e He). congruence.
    - constructor; [|constructor]. cbn [fst]. rewrite lookup_insert_eq. eauto. }
  intros Hunshared.
  unfold Layout.unshared in *. cbn [Layout._rects].
  rewrite map_app. cbn [map fst]. apply NoDup_app. split; [exact Hunshared|].
  split; [|apply NoDup_singleton].
  intros r' Hin Hin'. apply list_elem_of_singleton in Hin'. subst r'.
  apply list_elem_of_fmap in Hin as (e & Heq & He).
  apply (Hold e He). congruence.
Qed.

(** [add] on the layout of [Scenario.covered_layout], in which no rect is
    shared, and on that of [Scenario.shared_rect_layout], in which one rect
    is held twice. *)
Lemma Layout_add_fresh_rect_witness :
  let out := Layout.add Scenario.covered_layout.1 Scenario.covered_layout.2
               1 2 3 4 None None in
  let shared := Layout.add Scenario.shared_rect.2 Scenario.shared_rect_layout
                  1 2 3 4 None None in
  Layout.rect_count out.2.2 = 3%nat /\ Layout.unshared out.2.2 /\
  Layout.rect_count shared.2.2 = 3%nat /\
  Layout.occurrences shared.1 (Layout._rects shared.2.2) = 1%nat.
Proof.
  assert (Halloc : Layout.allocated Scenario.covered_layout.1
                     Scenario.covered_layout.2).
  { repeat constructor; eexists; reflexivity. }
  assert (Hun : Layout.unshared Scenario.covered_layout.2).
  { apply (bool_decide_unpack _). vm_compute. exact I. }
  assert (Halloc' : Layout.allocated Scenario.shared_rect.2
                      Scenario.shared_rect_layout).
  { repeat constructor; eexists; reflexivity. }
  destruct (Layout_add_fresh_rect _ _ 1 2 3 4 None None Halloc)
    as (_ & _ & _ & _ & _ & _ & _ & Hcount & _ & Hunshared).
  destruct (Layout_add_fresh_rect _ _ 1 2 3 4 None None Halloc')
    as (_ & _ & Honce & _ & _ & _ & _ & Hcount' & _ & _).
  split; [exact Hcount|]. split; [exact (Hunshared Hun)|].
  split; [exact Hcount'|exact Honce].
Defined.

Lemma find_hotspot_loop_app (h : Layout.heap) (a b : list Layout.element)
    (x y : Z) :
  Layout.find_hotspot_loop h (a ++ b) x y =
  match Layout.find_hotspot_loop h a x y with
  | Some answer => Some answer
  | None => Layout.find_hotspot_loop h b x y
  end.
Proof.
  induction a as [|[[r df] [tag|]] a IH]; simpl; try exact IH.
  - reflexivity.
  - destruct (LayoutRect.is_point_inside (h !!! r) x y); [reflexivity|exact IH].
Qed.

Lemma draw_loop_app (h : Layout.heap) (a b : list Layout.element) :
  Layout.draw_loop h (a ++ b) = Layout.draw_loop h a ++ Layout.draw_loop h b.
Proof.
  induction a as [|[[r [f|]] tag] a IH]; simpl; [reflexivity| |exact IH].
  rewrite IH. reflexivity.
Qed.

(** X10: [merge] puts the other layout's elements after its own: the
    merged layout is hit-tested as the receiver first and the other layout
    only where the receiver has no answer, it is drawn as the receiver
    followed by the other, it counts the elements of both, and its
    [last_rect] is the other's, also when the other has none. *)
Theorem Layout_merge_composes (h : Layout.heap) (self other : Layout.t)
    (x y : Z) :
  let merged := Layout.merge self other in
  Layout.find_hotspot h merged x y =
    match Layout.find_hotspot h self x y with
    | Some answer => Some answer
    | None => Layout.find_hotspot h other x y
    end /\
  Layout.draw h merged = Layout.draw h self ++ Layout.draw h other /\
  Layout.view h merged = Layout.view h self ++ Layout.view h other /\
  Layout.rect_count merged =
    (Layout.rect_count self + Layout.rect_count other)%nat /\
  Layout.last_rect merged = Layout.last_rect other /\
  (Layout.allocated h self -> Layout.allocated h other ->
   Layout.allocated h merged).
Proof.
  unfold Layout.find_hotspot, Layout.draw, Layout.view, Layout.rect_count,
    Layout.allocated. simpl.
  split; [apply find_hotspot_loop_app|].
  split; [apply draw_loop_app|].
  split; [apply map_app|].
  split; [apply List.length_app|].
  split; [reflexivity|].
  intros Ha Hb. apply Forall_app. split; assumption.
Qed.

Lemma max_width_height_spec (h : Layout.heap) (self : Layout.t) :
  (Layout._rects self = [] ->
   Layout.max_width h self = Raise ValueError /\
   Layout.max_height h self = Raise ValueError) /\
  (Layout._rects self <> [] ->
   exists mw mh : Z,
     Layout.max_width h self = Ok mw /\
     Layout.max_height h self = Ok mh /\
     (exists e, e ∈ Layout._rects self /\
                LayoutRect.width (h !!! e.1.1) = mw) /\
     (exists e, e ∈ Layout._rects self /\
                LayoutRect.height (h !!! e.1.1) = mh) /\
     forall e, e ∈ Layout._rects self ->
       LayoutRect.width (h !!! e.1.1) <= mw /\
       LayoutRect.height (h !!! e.1.1) <= mh).
Proof.
  unfold Layout.max_width, Layout.max_height. split.
  - intros ->. split; reflexivity.
  - intros Hne.
    destruct (Layout.py_max (map _ (Layout._rects self))) as [mw|e] eqn:Hw;
      [|destruct (Layout._rects self); [congruence|discriminate Hw]].
    destruct (Layout.py_max (map (fun e : Layout.element =>
                LayoutRect.height (h !!! e.1.1)) (Layout._rects self)))
      as [mh|e] eqn:Hh;
      [|destruct (Layout._rects self); [congruence|discriminate Hh]].
    apply py_max_spec in Hw as [Hwin Hwall], Hh as [Hhin Hhall].
    exists mw, mh. split; [reflexivity|]. split; [reflexivity|].
    apply list_elem_of_fmap in Hwin as (ew & Hew & Hewin).
    apply list_elem_of_fmap in Hhin as (eh & Heh & Hehin).
    split; [exists ew; split; [exact Hewin|symmetry; exact Hew]|].
    split; [exists eh; split; [exact Hehin|symmetry; exact Heh]|].
    intros e He. rewrite Forall_forall in Hwall, Hhall. split.
    + apply Hwall. apply (list_elem_of_fmap_2 (fun e : Layout.element =>
        LayoutRect.width (h !!! e.1.1))), He.
    + apply Hhall. apply (list_elem_of_fmap_2 (fun e : Layout.element =>
        LayoutRect.height (h !!! e.1.1))), He.
Qed.


(** X11: [max_width] and [max_height] raise [ValueError] on a layout
    without elements and nothing else ever; on any other layout they answer
    with the width (height) of one of its elements, and no element is wider
    (higher). *)
Theorem Layout_max_width_height (h : Layout.heap) (self : Layout.t) :
  (Layout._rects self = [] ->
   Layout.max_width h self = Raise ValueError /\
   Layout.max_height h self = Raise ValueError) /\
  (Layout._rects self <> [] ->
   exists mw mh : Z,
     Layout.max_width h self = Ok mw /\
     Layout.max_height h self = Ok mh /\
     (exists e, e ∈ Layout._rects self /\
                LayoutRect.width (h !!! e.1.1) = mw) /\
     (exists e, e ∈ Layout._rects self /\
                LayoutRect.height (h !!! e.1.1) = mh) /\
     forall e, e ∈ Layout._rects self ->
       LayoutRect.width (h !!! e.1.1) <= mw /\
       LayoutRect.height (h !!! e.1.1) <= mh).
Proof. apply max_width_height_spec. Qed.

(** ** Centering and translating *)

Lemma for_each_rect_elem (update : LayoutRect.t -> LayoutRect.t)
    (rects : list Layout.element) (h : Layout.heap) (e : Layout.element) :
  (forall b, update (update b) = update b) ->
  e ∈ rects ->
  is_Some (h !! e.1.1) ->
  Layout.for_each_rect update rects h !!! e.1.1 = update (h !!! e.1.1).
Proof.
  intros Hidem He [v Hv].
  rewrite !lookup_total_alt, for_each_rect_idempotent by exact Hidem.
  rewrite Hv. simpl.
  destruct (decide (Layout.occurrences e.1.1 rects = O)) as [Hzero|_];
    [|reflexivity].
  exfalso. clear -He Hzero. induction rects as [|e' rects IH].
  - inversion He.
  - rewrite occurrences_cons in Hzero.
    destruct (decide (e'.1.1 = e.1.1)) as [_|Hne]; [discriminate|].
    apply elem_of_cons in He as [->|He]; [congruence|apply IH; assumption].
Qed.

(** X12: [center_x] called with the left edge alone centres the layout
    on its widest element: every rect ends inside the span from [left] to
    [left] plus the maximum width, with a gap on its right that is the gap on
    its left or one more, and a rect of the maximum width fills the span;
    y, width and height are not touched.  [center_y] called with the top
    edge alone does the same downwards. *)
Theorem Layout_center_on_widest (h : Layout.heap) (self : Layout.t)
    (e : Layout.element) (near : Z) :
  Layout.allocated h self ->
  e ∈ Layout._rects self ->
  (exists mw : Z,
     Layout.max_width h self = Ok mw /\
     let out := Layout.center_x h self (Some near) None in
     let before := h !!! e.1.1 in
     let after := out.1 !!! e.1.1 in
     let gap_left := LayoutRect.x after - near in
     let gap_right := near + mw - LayoutRect.get_right after in
     out.2 = Ok () /\
     0 <= gap_left <= gap_right /\ gap_right <= gap_left + 1 /\
     (LayoutRect.width before = mw ->
      LayoutRect.x after = near /\ LayoutRect.get_right after = near + mw) /\
     LayoutRect.y after = LayoutRect.y before /\
     LayoutRect.width after = LayoutRect.width before /\
     LayoutRect.height after = LayoutRect.height before) /\
  (exists mh : Z,
     Layout.max_height h self = Ok mh /\
     let out := Layout.center_y h self (Some near) None in
     let before := h !!! e.1.1 in
     let after := out.1 !!! e.1.1 in
     let gap_top := LayoutRect.y after - near in
     let gap_bottom := near + mh - LayoutRect.get_bottom after in
     out.2 = Ok () /\
     0 <= gap_top <= gap_bottom /\ gap_bottom <= gap_top + 1 /\
     (LayoutRect.height before = mh ->
      LayoutRect.y after = near /\ LayoutRect.get_bottom after = near + mh) /\
     LayoutRect.x after = LayoutRect.x before /\
     LayoutRect.width after = LayoutRect.width before /\
     LayoutRect.height after = LayoutRect.height before).
Proof.
  intros Halloc He.
  assert (Hsome : is_Some (h !! e.1.1)).
  { unfold Layout.allocated in Halloc. rewrite Forall_forall in Halloc.
    apply Halloc, He. }
  assert (Hne : Layout._rects self <> []).
  { intros Hnil. rewrite Hnil in He. inversion He. }
  destruct (proj2 (max_width_height_spec h self) Hne)
    as (mw & mh & Hmw & Hmh & _ & _ & Hall).
  destruct (Hall e He) as [Hw Hh].
  split.
  - exists mw. split; [exact Hmw|].
    unfold Layout.center_x. rewrite Hmw. cbn.
    rewrite for_each_rect_elem
      by (try apply set_centered_x_idempotent; assumption).
    unfold Layout.set_centered_x, LayoutRect.get_right. cbn.
    split; [reflexivity|].
    replace (near + mw - near) with mw by lia.
    pose proof (Z.div_mod (mw - LayoutRect.width (h !!! e.1.1)) 2 ltac:(lia)).
    pose proof (Z.mod_pos_bound (mw - LayoutRect.width (h !!! e.1.1)) 2
                  ltac:(lia)).
    repeat split; lia.
  - exists mh. split; [exact Hmh|].
    unfold Layout.center_y. rewrite Hmh. cbn.
    rewrite for_each_rect_elem
      by (try apply set_centered_y_idempotent; assumption).
    unfold Layout.set_centered_y, LayoutRect.get_bottom. cbn.
    split; [reflexivity|].
    replace (near + mh - near) with mh by lia.
    pose proof (Z.div_mod (mh - LayoutRect.height (h !!! e.1.1)) 2 ltac:(lia)).
    pose proof (Z.mod_pos_bound (mh - LayoutRect.height (h !!! e.1.1)) 2
                  ltac:(lia)).
    repeat split; lia.
Qed.

Lemma Layout_center_on_widest_witness :
  let h := Scenario.covered_layout.1 in
  let l := Scenario.covered_layout.2 in
  Layout.max_width h l = Ok 20 /\
  (Layout.center_x h l (Some 100) None).2 = Ok ().
Proof.
  assert (Halloc : Layout.allocated Scenario.covered_layout.1
                     Scenario.covered_layout.2).
  { repeat constructor; eexists; reflexivity. }
  assert (He : (1%positive, None, Some "low"%string)
                 ∈ Layout._rects Scenario.covered_layout.2).
  { left. }
  destruct (Layout_center_on_widest _ _ _ 100 Halloc He)
    as [(mw & Hmw & Hok & _) _].
  split; [reflexivity|exact Hok].
Defined.

(** X13: translations add up, also on layouts that share rects: moving
    by (dx1, dy1) and then by (dx2, dy2) leaves the heap as one move by the
    sums does, and moving back by the opposite deltas restores every rect. *)
Theorem Layout_translate_composes (h : Layout.heap) (self : Layout.t)
    (dx1 dy1 dx2 dy2 : Z) :
  Layout.translate (Layout.translate h self dx1 dy1) self dx2 dy2 =
    Layout.translate h self (dx1 + dx2) (dy1 + dy2) /\
  Layout.translate (Layout.translate h self dx1 dy1) self (- dx1) (- dy1) = h.
Proof.
  assert (Htwice : forall (a b c d : Z) (r : Layout.ref),
            Layout.translate (Layout.translate h self a b) self c d !! r =
            Layout.move (Z.of_nat (Layout.occurrences r (Layout._rects self)) * (a + c))
                        (Z.of_nat (Layout.occurrences r (Layout._rects self)) * (b + d))
              <$> h !! r).
  { intros a b c d r. unfold Layout.translate.
    rewrite !for_each_rect_lookup, <- option_fmap_compose.
    apply option_fmap_ext. intros [x y w ht]. simpl.
    rewrite !iter_move. unfold Layout.move. simpl. f_equal; lia. }
  split; apply map_eq; intros r; rewrite Htwice.
  - unfold Layout.translate. rewrite for_each_rect_lookup.
    apply option_fmap_ext. intros v. rewrite iter_move. reflexivity.
  - transitivity (id <$> h !! r); [|apply option_fmap_id].
    apply option_fmap_ext. intros [x y w ht]. unfold Layout.move. simpl.
    f_equal; lia.
Qed.

Lemma translate_elem (h : Layout.heap) (self : Layout.t) (dx dy : Z)
    (e : Layout.element) :
  Layout.allocated h self ->
  Layout.unshared self ->
  e ∈ Layout._rects self ->
  Layout.translate h self dx dy !!! e.1.1 = Layout.move dx dy (h !!! e.1.1).
Proof.
  intros Halloc Hun He. unfold Layout.allocated in Halloc.
  rewrite Forall_forall in Halloc. destruct (Halloc e He) as [v Hv].
  unfold Layout.translate.
  rewrite !lookup_total_alt, for_each_rect_lookup, Hv. simpl.
  rewrite (occurrences_NoDup e _ Hun He). reflexivity.
Qed.

Lemma find_hotspot_loop_moved (h h' : Layout.heap) (dx dy x y : Z)
    (rects : list Layout.element) :
  Forall (fun e : Layout.element =>
            h' !!! e.1.1 = Layout.move dx dy (h !!! e.1.1)) rects ->
  Layout.find_hotspot_loop h' rects (x + dx) (y + dy) =
  Layout.find_hotspot_loop h rects x y.
Proof.
  induction 1 as [|[[r df] [tag|]] rects Hmoved _ IH]; simpl;
    [reflexivity| |exact IH].
  simpl in Hmoved. rewrite Hmoved, IH.
  unfold LayoutRect.is_point_inside, Layout.move. simpl.
  replace (x + dx - (LayoutRect.x (h !!! r) + dx))
    with (x - LayoutRect.x (h !!! r)) by lia.
  replace (y + dy - (LayoutRect.y (h !!! r) + dy))
    with (y - LayoutRect.y (h !!! r)) by lia.
  bool_cases.
Qed.

Lemma draw_loop_moved (h h' : Layout.heap) (dx dy : Z)
    (rects : list Layout.element) :
  Forall (fun e : Layout.element =>
            h' !!! e.1.1 = Layout.move dx dy (h !!! e.1.1)) rects ->
  Layout.draw_loop h' rects =
  map (fun c : string * Z * Z * Z * Z =>
         (c.1.1.1.1, c.1.1.1.2 + dx, c.1.1.2 + dy, c.1.2, c.2))
      (Layout.draw_loop h rects).
Proof.
  induction 1 as [|[[r [f|]] tag] rects Hmoved _ IH]; simpl;
    [reflexivity| |exact IH].
  simpl in Hmoved. rewrite Hmoved, IH. reflexivity.
Qed.

(** X14: on a layout in which no rect is shared, [translate] moves
    hit-testing and drawing along: the moved layout answers at
    (x + dx, y + dy) what the layout answered at (x, y), with the same
    relative coordinates, and draws the same functions in the same order,
    each rect shifted by (dx, dy) and of unchanged size. *)
Theorem Layout_translate_moves_hits_and_drawing (h : Layout.heap)
    (self : Layout.t) (dx dy x y : Z) :
  Layout.allocated h self ->
  Layout.unshared self ->
  let h' := Layout.translate h self dx dy in
  Layout.find_hotspot h' self (x + dx) (y + dy) = Layout.find_hotspot h self x y /\
  Layout.draw h' self =
    map (fun c : string * Z * Z * Z * Z =>
           (c.1.1.1.1, c.1.1.1.2 + dx, c.1.1.2 + dy, c.1.2, c.2))
        (Layout.draw h self).
Proof.
  intros Halloc Hun h'.
  assert (Hmoved : Forall (fun e : Layout.element =>
            h' !!! e.1.1 = Layout.move dx dy (h !!! e.1.1))
            (Layout._rects self)).
  { apply Forall_forall. intros e He. apply translate_elem; assumption. }
  split.
  - apply find_hotspot_loop_moved, Hmoved.
  - apply draw_loop_moved, Hmoved.
Qed.

Lemma Layout_translate_moves_hits_and_drawing_witness :
  let h := Scenario.covered_layout.1 in
  let l := Scenario.covered_layout.2 in
  Layout.find_hotspot (Layout.translate h l 5 7) l (3 + 5) (4 + 7) =
    Some ("low"%string, 3, 4).
Proof.
  assert (Halloc : Layout.allocated Scenario.covered_layout.1
                     Scenario.covered_layout.2).
  { repeat constructor; eexists; reflexivity. }
  assert (Hun : Layout.unshared Scenario.covered_layout.2).
  { apply (bool_decide_unpack _). vm_compute. exact I. }
  intros h l. subst h l.
  rewrite (proj1 (Layout_translate_moves_hits_and_drawing _ _ 5 7 3 4
                    Halloc Hun)).
  reflexivity.
Defined.

(** ** Errors in hit-testing *)

(** X15: an [AttributeError] that comes out of [Packer.find_hotspot] was
    raised by the packer's own [_find_child_at], as is every other
    exception it raises there.  When [_find_child_at] reports a child, a
    child that has no [find_hotspot] at all, or whose [find_hotspot] raises
    [AttributeError], gives the answer [None]; any other outcome of the
    child's [find_hotspot], asked at the point relative to the child, is
    the outcome of the packer.  When [_find_child_at] reports no child the
    answer is [None]. *)
Theorem Packer_find_hotspot_attribute_error
    (_find_child_at : Z -> Z -> Z -> Z -> result (option child_pos))
    (x y width height : Z) :
  (Packer_find_hotspot _find_child_at x y width height = Raise AttributeError ->
   _find_child_at x y width height = Raise AttributeError) /\
  (forall e : exn,
     _find_child_at x y width height = Raise e ->
     Packer_find_hotspot _find_child_at x y width height = Raise e) /\
  (_find_child_at x y width height = Ok None ->
   Packer_find_hotspot _find_child_at x y width height = Ok None) /\
  (forall (child : obj) (child_x child_y child_width child_height : Z),
     _find_child_at x y width height =
       Ok (Some (child, child_x, child_y, child_width, child_height)) ->
     (obj_find_hotspot child = None ->
      Packer_find_hotspot _find_child_at x y width height = Ok None) /\
     (forall g, obj_find_hotspot child = Some g ->
        (g (x - child_x) (y - child_y) child_width child_height =
           Raise AttributeError ->
         Packer_find_hotspot _find_child_at x y width height = Ok None) /\
        (g (x - child_x) (y - child_y) child_width child_height <>
           Raise AttributeError ->
         Packer_find_hotspot _find_child_at x y width height =
           g (x - child_x) (y - child_y) child_width child_height))).
Proof.
  unfold Packer_find_hotspot. split; [|split; [|split]].
  - destruct (_find_child_at x y width height) as [[[[[[c cx] cy] cw] ch]|]|e];
      simpl; try discriminate; [|intros [= ->]; reflexivity].
    destruct (obj_find_hotspot c) as [g|]; [|discriminate].
    destruct (g (x - cx) (y - cy) cw ch) as [a|[]]; discriminate.
  - intros e ->. reflexivity.
  - intros ->. reflexivity.
  - intros child cx cy cw ch ->. simpl. split.
    + intros ->. reflexivity.
    + intros g ->. split.
      * intros ->. reflexivity.
      * intros Hother.
        destruct (g (x - cx) (y - cy) cw ch) as [a|[]];
          first [reflexivity | contradiction Hother; reflexivity].
Qed.

(** The table of [Scenario.sparse_table], whose [find_hotspot] raises
    [AttributeError] from its own scan of the cells; and a padding whose
    child has no [find_hotspot], or one that raises [AttributeError]. *)
Lemma Packer_find_hotspot_attribute_error_witness :
  (exists t, Scenario.sparse_table = Ok t /\
     Table._find_child_at t 5 5 10 10 = Raise AttributeError) /\
  Padding.find_hotspot (Padding.__init__ (leaf 10 10) 0 0 0 0) 3 4 10 10 =
    Ok None /\
  Padding.find_hotspot
    (Padding.__init__
       {| obj_truth := true; obj_has_draw := true;
          obj_get_size := Some (10, 10);
          obj_find_hotspot := Some (fun _ _ _ _ => Raise AttributeError);
          obj_find_child_at := None |} 0 0 0 0) 3 4 10 10 = Ok None.
Proof.
  split; [|split].
  - eexists. split; [reflexivity|].
    apply Packer_find_hotspot_attribute_error. reflexivity.
  - unfold Padding.find_hotspot.
    destruct (Packer_find_hotspot_attribute_error
                (Padding._find_child_at (Padding.__init__ (leaf 10 10) 0 0 0 0))
                3 4 10 10) as (_ & _ & _ & Hchild).
    destruct (Hchild (leaf 10 10) 0 0 10 10 eq_refl) as [Hnone _].
    apply Hnone. reflexivity.
  - unfold Padding.find_hotspot.
    set (child := {| obj_truth := true; obj_has_draw := true;
                     obj_get_size := Some (10, 10);
                     obj_find_hotspot :=
                       Some (fun _ _ _ _ => Raise AttributeError);
                     obj_find_child_at := None |}).
    destruct (Packer_find_hotspot_attribute_error
                (Padding._find_child_at (Padding.__init__ child 0 0 0 0))
                3 4 10 10) as (_ & _ & _ & Hchild).
    destruct (Hchild child 0 0 10 10 eq_refl) as [_ Hsome].
    destruct (Hsome _ eq_refl) as [Hraise _].
    apply Hraise. reflexivity.
Defined.

(** ** The size of a stack *)



(** ** Positions in a box *)

Lemma child_length_of_idle (o : Box.orientation) (ec : Z)
    (it : Box.extra_space_iter) (p : packing) :
  packing_expand p = false ->
  Box.packing_sized p = true ->
  exists len,
    Box.child_length_of o ec it p = Ok (len, it) /\
    (forall pos, Box.keeps_minimum o (p, pos, len)) /\
    (forall pos, Box.bonus_of o (p, pos, len) = None).
Proof.
  intros He Hs. destruct (packing_sized_calc_size o p Hs) as (l & b & Hc).
  unfold Box.child_length_of, Box.bonus_of, Box.keeps_minimum.
  rewrite Hc, He. simpl. exists l. split; [reflexivity|]. split; eauto.
Qed.

Lemma expanding_cons_zero (p : packing) (ps : list packing) :
  Box.expanding (p :: ps) = O ->
  packing_expand p = false /\ Box.expanding ps = O.
Proof.
  rewrite expanding_cons. destruct (packing_expand p); [discriminate|].
  intros ->. split; reflexivity.
Qed.

(** Neither loop pulls from the generator when no child has the expand
    flag. *)
Lemma position_leading_idle (o : Box.orientation) (sp ec : Z)
    (it : Box.extra_space_iter) (ps : list packing) :
  forall pos : Z,
    Box.expanding ps = O ->
    forallb Box.packing_sized ps = true ->
    exists items,
      Box.position_leading o sp ec it pos ps = (items, Ok it) /\
      items.*1.*1 = ps /\
      Forall (Box.keeps_minimum o) items /\
      Box.bonuses o items = [].
Proof.
  induction ps as [|p ps IH]; intros pos Hz Hs.
  - exists []. repeat split; constructor.
  - apply expanding_cons_zero in Hz as [He Hz].
    apply andb_true_iff in Hs as [Hp Hs].
    destruct (child_length_of_idle o ec it p He Hp) as (len & Hc & Hk & Hb).
    cbn [Box.position_leading]. rewrite Hc.
    destruct (IH (pos + (len + sp)) Hz Hs) as (items & Hw & Hi & Hf & Hbs).
    rewrite Hw. eexists (_ :: items). split; [reflexivity|].
    split; [simpl; f_equal; exact Hi|].
    split; [constructor; [apply Hk|exact Hf]|].
    unfold Box.bonuses in *. cbn [omap list_omap]. rewrite Hb. exact Hbs.
Qed.

Lemma position_trailing_idle (o : Box.orientation) (sp ec : Z)
    (it : Box.extra_space_iter) (ps : list packing) :
  forall pos : Z,
    Box.expanding ps = O ->
    forallb Box.packing_sized ps = true ->
    exists items,
      Box.position_trailing o sp ec it pos ps = (items, Ok it) /\
      items.*1.*1 = ps /\
      Forall (Box.keeps_minimum o) items /\
      Box.bonuses o items = [].
Proof.
  induction ps as [|p ps IH]; intros pos Hz Hs.
  - exists []. repeat split; constructor.
  - apply expanding_cons_zero in Hz as [He Hz].
    apply andb_true_iff in Hs as [Hp Hs].
    destruct (child_length_of_idle o ec it p He Hp) as (len & Hc & Hk & Hb).
    cbn [Box.position_trailing]. rewrite Hc.
    destruct (IH (pos - len - sp) Hz Hs) as (items & Hw & Hi & Hf & Hbs).
    rewrite Hw. eexists (_ :: items). split; [reflexivity|].
    split; [simpl; f_equal; exact Hi|].
    split; [constructor; [apply Hk|exact Hf]|].
    unfold Box.bonuses in *. cbn [omap list_omap]. rewrite Hb. exact Hbs.
Qed.

(** What the position generator of a well-formed box does, whatever its
    [expand_count]: both loops run to their end, and the bonuses are the
    first [expand_count] values of the generator. *)
Lemma position_children_well_formed (self : Box.t) (total_length : Z) :
  Box.well_formed self = true ->
  exists (w h : Z) (front back : list Box.position)
         (it1 it2 : Box.extra_space_iter),
    get_size self = (Ok (w, h), (get_size self).2) /\
    let my_length := (Box._translate (Box.kind self) w h).1 in
    let it0 := Box._extra_space_iter (total_length - my_length) in
    Box._position_children self total_length =
      (Box.Positions (front ++ back) None, (get_size self).2) /\
    Box.position_leading (Box.kind self) (Box.spacing self)
      (Box.expand_count self) it0 0 (Box.children self) = (front, Ok it1) /\
    Box.position_trailing (Box.kind self) (Box.spacing self)
      (Box.expand_count self) it1 total_length (Box.children_end self)
      = (back, Ok it2) /\
    front.*1.*1 = Box.children self /\
    back.*1.*1 = Box.children_end self /\
    Forall (Box.keeps_minimum (Box.kind self)) (front ++ back) /\
    Box.bonuses (Box.kind self) (front ++ back) =
      Box.spread (Z.to_nat (Box.expand_count self))
        (Box.owed (Box.expand_count self) it0).1
        (Box.owed (Box.expand_count self) it0).2.
Proof.
  intros Hwf.
  destruct (well_formed_get_size self Hwf)
    as ([w h] & self' & Hg & Hk & Hsp & Hch & Hce & Hec).
  apply andb_true_iff in Hwf as [Hcount%bool_decide_eq_true Hs].
  rewrite forallb_app in Hs. apply andb_true_iff in Hs as [Hs1 Hs2].
  rewrite expanding_app in Hcount.
  exists w, h.
  unfold Box._position_children. rewrite Hg. cbn [fst snd].
  rewrite Hk, Hsp, Hch, Hce, Hec.
  destruct (Box._translate (Box.kind self) w h) as [my_length my_breadth].
  cbn [fst].
  set (it0 := Box._extra_space_iter (total_length - my_length)).
  set (n := Box.expand_count self) in *.
  destruct (Z.eq_dec n 0) as [Hzero|Hpos].
  - assert (Hz1 : Box.expanding (Box.children self) = O) by lia.
    assert (Hz2 : Box.expanding (Box.children_end self) = O) by lia.
    destruct (position_leading_idle (Box.kind self) (Box.spacing self) n it0
                (Box.children self) 0 Hz1 Hs1) as (front & Hw1 & Hi1 & Hf1 & Hb1).
    destruct (position_trailing_idle (Box.kind self) (Box.spacing self) n it0
                (Box.children_end self) total_length Hz2 Hs2)
      as (back & Hw2 & Hi2 & Hf2 & Hb2).
    exists front, back, it0, it0. rewrite Hw1, Hw2.
    split; [reflexivity|]. split; [reflexivity|]. split; [reflexivity|].
    split; [reflexivity|]. split; [exact Hi1|]. split; [exact Hi2|].
    split; [apply Forall_app; split; assumption|].
    rewrite bonuses_app, Hb1, Hb2, Hzero. reflexivity.
  - assert (Hr0 : Box.ready n it0) by (right; lia).
    destruct (position_leading_spec (Box.kind self) (Box.spacing self) n
                (Box.children self) it0 0 Hr0 Hs1)
      as (front & it1 & Hw1 & Hi1 & Hr1 & Hf1 & Hb1 & Ho1).
    destruct (position_trailing_spec (Box.kind self) (Box.spacing self) n
                (Box.children_end self) it1 total_length Hr1 Hs2)
      as (back & it2 & Hw2 & Hi2 & _ & Hf2 & Hb2 & _).
    exists front, back, it1, it2. rewrite Hw1, Hw2.
    split; [reflexivity|]. split; [reflexivity|]. split; [reflexivity|].
    split; [reflexivity|]. split; [exact Hi1|]. split; [exact Hi2|].
    split; [apply Forall_app; split; assumption|].
    rewrite bonuses_app, Hb1, Hb2, Ho1. cbn [fst snd].
    rewrite <- spread_app. f_equal. lia.
Qed.



Lemma position_leading_chain (o : Box.orientation) (sp ec : Z)
    (ps : list packing) :
  forall (it : Box.extra_space_iter) (pos : Z) (items : list Box.position)
         (r : result Box.extra_space_iter),
    Box.position_leading o sp ec it pos ps = (items, r) ->
    (forall a, items !! O = Some a -> a.1.2 = pos) /\
    (forall i a b, items !! i = Some a -> items !! S i = Some b ->
                   b.1.2 = a.1.2 + a.2 + sp).
Proof.
  induction ps as [|p ps IH]; intros it pos items r; cbn [Box.position_leading].
  - intros [= <- _]. split; intros; discriminate.
  - destruct (Box.child_length_of o ec it p) as [[len it']|e];
      [|intros [= <- _]; split; intros; discriminate].
    destruct (Box.position_leading o sp ec it' (pos + (len + sp)) ps)
      as [rest r'] eqn:Hrest.
    intros [= <- _]. destruct (IH _ _ _ _ Hrest) as [Hhead Hchain].
    split.
    + intros a [= <-]. reflexivity.
    + intros [|i] a b Ha Hb; simpl in Ha, Hb.
      * injection Ha as <-. rewrite (Hhead b Hb). simpl. lia.
      * exact (Hchain i a b Ha Hb).
Qed.

Lemma position_trailing_chain (o : Box.orientation) (sp ec : Z)
    (ps : list packing) :
  forall (it : Box.extra_space_iter) (pos : Z) (items : list Box.position)
         (r : result Box.extra_space_iter),
    Box.position_trailing o sp ec it pos ps = (items, r) ->
    (forall a, items !! O = Some a -> a.1.2 + a.2 = pos) /\
    (forall i a b, items !! i = Some a -> items !! S i = Some b ->
                   b.1.2 + b.2 + sp = a.1.2).
Proof.
  induction ps as [|p ps IH]; intros it pos items r; cbn [Box.position_trailing].
  - intros [= <- _]. split; intros; discriminate.
  - destruct (Box.child_length_of o ec it p) as [[len it']|e];
      [|intros [= <- _]; split; intros; discriminate].
    cbn zeta.
    destruct (Box.position_trailing o sp ec it' (pos - len - sp) ps)
      as [rest r'] eqn:Hrest.
    intros [= <- _]. destruct (IH _ _ _ _ Hrest) as [Hhead Hchain].
    split.
    + intros a [= <-]. simpl. lia.
    + intros [|i] a b Ha Hb; simpl in Ha, Hb.
      * injection Ha as <-. pose proof (Hhead b Hb). simpl. lia.
      * exact (Hchain i a b Ha Hb).
Qed.

(** X18: in a box built by the pack methods the leading children are
    placed from 0 onwards, each starting where the one before ends plus the
    spacing, and the trailing children from the far end backwards: the first
    one packed ends at the allocated length and each later one ends one
    spacing before the start of the one packed before it. *)
Theorem Box_positions_are_contiguous (self : Box.t) (total_length : Z) :
  Box.well_formed self = true ->
  exists front back : list Box.position,
    Box.yielded (Box._position_children self total_length).1 = front ++ back /\
    front.*1.*1 = Box.children self /\
    back.*1.*1 = Box.children_end self /\
    (forall a, front !! O = Some a -> a.1.2 = 0) /\
    (forall i a b, front !! i = Some a -> front !! S i = Some b ->
                   b.1.2 = a.1.2 + a.2 + Box.spacing self) /\
    (forall a, back !! O = Some a -> a.1.2 + a.2 = total_length) /\
    (forall i a b, back !! i = Some a -> back !! S i = Some b ->
                   b.1.2 + b.2 + Box.spacing self = a.1.2).
Proof.
  intros Hwf.
  destruct (position_children_well_formed self total_length Hwf)
    as (w & h & front & back & it1 & it2 & _ & Hpos & Hw1 & Hw2 & Hi1 & Hi2 & _).
  cbn zeta in Hpos, Hw1. exists front, back. rewrite Hpos.
  split; [reflexivity|]. split; [exact Hi1|]. split; [exact Hi2|].
  destruct (position_leading_chain _ _ _ _ _ _ _ _ Hw1) as [Hh1 Hc1].
  destruct (position_trailing_chain _ _ _ _ _ _ _ _ Hw2) as [Hh2 Hc2].
  repeat split; assumption.
Qed.

(** Widths 10 and 20 packed at the start, 15 at the end, spacing 5, in a
    width of 100. *)
Lemma Box_positions_are_contiguous_witness :
  let b :=
    {| Box.kind := Box.HBox; Box.spacing := 5;
       Box.children := [Packing (leaf 10 1) false; Packing (leaf 20 1) false];
       Box.children_end := [Packing (leaf 15 1) false];
       Box.expand_count := 0; Box.size_memo := None |} in
  Box.well_formed b = true /\
  map (fun item : Box.position => (item.1.2, item.2))
      (Box.yielded (Box._position_children b 100).1) =
    [(0, 10); (15, 20); (85, 15)] /\
  exists front back : list Box.position,
    Box.yielded (Box._position_children b 100).1 = front ++ back /\
    front.*1.*1 = Box.children b /\
    back.*1.*1 = Box.children_end b.
Proof.
  intros b. split; [reflexivity|]. split; [reflexivity|].
  destruct (Box_positions_are_contiguous b 100 eq_refl)
    as (front & back & Hy & Hf & Hb & _).
  exists front, back. split; [exact Hy|]. split; [exact Hf|exact Hb].
Defined.

(** ** How much of the allocation a box uses *)

Lemma translate_involutive (o : Box.orientation) (x y : Z) :
  Box._translate o (Box._translate o x y).1 (Box._translate o x y).2 = (x, y).
Proof. destruct o; reflexivity. Qed.

(** The minimum lengths of a list of packings, where they have one. *)
Lemma calc_size_loop_length (o : Box.orientation) (ps : list packing) :
  forall (l0 b0 l b : Z) (items : list Box.position),
    Box.calc_size_loop o ps l0 b0 = Ok (l, b) ->
    items.*1.*1 = ps ->
    Forall (Box.keeps_minimum o) items ->
    Box.total items.*2 = l - l0 + Box.total (Box.bonuses o items).
Proof.
  induction ps as [|p ps IH]; intros l0 b0 l b items Hloop Hitems Hkeep.
  - destruct items; [|discriminate]. injection Hloop as <- <-. simpl. lia.
  - destruct items as [|[[q pos] len] items]; [discriminate|].
    injection Hitems as -> Hitems. inversion Hkeep as [|? ? Hk Hkeep']; subst.
    simpl in Hloop. destruct (packing_calc_size (Box._translate o) p)
      as [[cl cb]|e] eqn:Hc; [|discriminate]. simpl in Hloop.
    specialize (IH _ _ _ _ items Hloop eq_refl Hkeep').
    assert (Hb : Box.bonus_of o (p, pos, len) =
                 if packing_expand p then Some (len - cl) else None).
    { unfold Box.bonus_of. rewrite Hc. reflexivity. }
    unfold Box.keeps_minimum in Hk. rewrite Hc in Hk.
    unfold Box.bonuses, Box.total in *.
    cbn [fmap list_fmap omap list_omap foldr snd]. rewrite Hb.
    change (list_fmap _ _ snd items) with (items.*2).
    destruct (packing_expand p).
    + cbn [foldr]. lia.
    + destruct (Hk eq_refl) as [b' [= -> _]]. lia.
Qed.

(** X19: a box built by the pack methods and whose memoised size, if
    any, is up to date hands out lengths that, with the spacing between the
    children, add up to exactly the allocated length when it has an
    expandable child and is allocated at least its minimum, and to exactly
    its minimum length when it has no expandable child or is allocated
    less. *)
Theorem Box_lengths_add_up (self : Box.t) (total_length : Z) :
  Box.well_formed self = true ->
  (get_size self).1 = get_current_size self ->
  exists size : Z * Z,
    get_current_size self = Ok size /\
    let minimum := (Box._translate (Box.kind self) size.1 size.2).1 in
    let count :=
      Z.of_nat (List.length (Box.children self ++ Box.children_end self)) in
    let used :=
      Box.total (Box.yielded (Box._position_children self total_length).1).*2
      + Box.spacing self * (count - 1) in
    (0 < Box.expand_count self -> minimum <= total_length ->
     used = total_length) /\
    (Box.expand_count self = 0 \/ total_length <= minimum -> used = minimum).
Proof.
  intros Hwf Hmemo.
  destruct (position_children_well_formed self total_length Hwf)
    as (w & h & front & back & it1 & it2 & Hg & Hpos & _ & _ & Hi1 & Hi2
        & Hkeep & Hbonus).
  cbn zeta in Hpos, Hbonus.
  rewrite Hg in Hmemo. cbn [fst] in Hmemo. exists (w, h).
  split; [symmetry; exact Hmemo|]. cbn [fst snd]. rewrite Hpos.
  cbn [fst Box.yielded].
  unfold get_current_size in Hmemo. cbn in Hmemo. unfold Box.calc_size in Hmemo.
  destruct (Box.calc_size_loop (Box.kind self)
              (Box.children self ++ Box.children_end self) 0 0)
    as [[l b]|e] eqn:Hloop; [|discriminate]. simpl in Hmemo.
  injection Hmemo as Hwh.
  assert (Hmy : (Box._translate (Box.kind self) w h).1 =
                l + Box.spacing self *
                    (Z.of_nat (List.length (Box.children self)) +
                     Z.of_nat (List.length (Box.children_end self)) - 1)).
  { pose proof (translate_involutive (Box.kind self)
      (l + Box.spacing self *
           (Z.of_nat (List.length (Box.children self)) +
            Z.of_nat (List.length (Box.children_end self)) - 1)) b) as Hinv.
    rewrite <- Hwh in Hinv. cbn [fst snd] in Hinv. rewrite Hinv. reflexivity. }
  assert (Hitems : (front ++ back).*1.*1 =
                   Box.children self ++ Box.children_end self).
  { rewrite !fmap_app, Hi1, Hi2. reflexivity. }
  pose proof (calc_size_loop_length _ _ _ _ _ _ _ Hloop Hitems Hkeep) as Hsum.
  rewrite Hbonus in Hsum. rewrite List.length_app, Nat2Z.inj_add.
  apply andb_true_iff in Hwf as [Hcount%bool_decide_eq_true _].
  set (n := Box.expand_count self) in *.
  set (my := (Box._translate (Box.kind self) w h).1) in *.
  split.
  - intros Hn Hmin.
    assert (Hrange : 0 <= (Box.owed n (Box._extra_space_iter (total_length - my))).1
                       <= Z.of_nat (Z.to_nat n) /\
                     Z.of_nat (Z.to_nat n) *
                       (Box.owed n (Box._extra_space_iter (total_length - my))).2
                     + (Box.owed n (Box._extra_space_iter (total_length - my))).1
                     = total_length - my).
    { unfold Box._extra_space_iter. simpl.
      destruct (Z.leb_spec (total_length - my) 0); simpl; [lia|].
      pose proof (Z.mod_pos_bound (total_length - my) n Hn).
      pose proof (Z.div_mod (total_length - my) n). lia. }
    destruct Hrange as [Hrange Htot].
    rewrite spread_total in Hsum by exact Hrange. lia.
  - intros Hcase.
    assert (Hzero : Box.total (Box.spread (Z.to_nat n)
                      (Box.owed n (Box._extra_space_iter (total_length - my))).1
                      (Box.owed n (Box._extra_space_iter (total_length - my))).2)
                    = 0).
    { destruct Hcase as [Hn|Hle].
      - rewrite Hn. reflexivity.
      - unfold Box._extra_space_iter. simpl.
        destruct (Z.leb_spec (total_length - my) 0); [|lia]. simpl.
        rewrite spread_zero. clear. induction (Z.to_nat n); simpl; lia. }
    rewrite Hzero in Hsum. lia.
Qed.

Lemma Box_lengths_add_up_witness :
  exists b,
    Scenario.expanding_box = Ok b /\
    Box.total (Box.yielded (Box._position_children b 100).1).*2 + 2 * (4 - 1)
      = 100.
Proof.
  eexists. split; [reflexivity|].
  destruct (Box_lengths_add_up
              {| Box.kind := Box.HBox;
                 Box.spacing := 2;
                 Box.children :=
                   [Packing (leaf 10 5) true; Packing (leaf 20 8) false;
                    WhitespacePacking 3 true];
                 Box.children_end := [Packing (leaf 5 4) true];
                 Box.expand_count := 3;
                 Box.size_memo := None |} 100 eq_refl eq_refl)
    as (size & Hsize & Hfill & _).
  apply Hfill; [reflexivity|].
  injection Hsize as <-. discriminate.
Defined.

(** ** Drawing and hit-testing in a box agree *)





(** ** Hit-testing the leading children *)

(** The answer of the loop at an item that contains the point, when every
    earlier item starts at or before the point and does not contain it. *)
Lemma find_child_loop_at (o : Box.orientation) (pos total_breadth : Z)
    (before after : list Box.position) (ending : option exn)
    (p : packing) (child_pos child_length : Z) :
  Forall (fun item : Box.position =>
            item.1.2 <= pos /\ ~ (pos < item.1.2 + item.2)) before ->
  child_pos <= pos < child_pos + child_length ->
  Box.find_child_loop o pos total_breadth
    (before ++ (p, child_pos, child_length) :: after) ending =
  Ok match p with
     | Packing child _ =>
         Some (child,
               (Box._translate o child_pos 0).1,
               (Box._translate o child_pos 0).2,
               (Box._translate o child_length total_breadth).1,
               (Box._translate o child_length total_breadth).2)
     | WhitespacePacking _ _ => None
     end.
Proof.
  intros Hbefore Hin. induction Hbefore as [|[[q cp] cl] before [Hle Hnot] _ IH];
    simpl in *.
  - destruct (Z.leb_spec child_pos pos), (Z.ltb_spec pos (child_pos + child_length));
      try lia. simpl.
    destruct (Box._translate o child_pos 0),
             (Box._translate o child_length total_breadth).
    destruct p; reflexivity.
  - destruct (Z.leb_spec cp pos), (Z.ltb_spec pos (cp + cl)); try lia. simpl.
    destruct (Z.ltb_spec pos cp); [lia|]. exact IH.
Qed.

(** Along a chain of items that are not of negative length, with a spacing
    that is not negative, every item ends at or before the start of each
    later one. *)
Lemma chain_ends_before (sp : Z) (items : list Box.position) :
  0 <= sp ->
  Forall (fun item : Box.position => 0 <= item.2) items ->
  (forall i a b, items !! i = Some a -> items !! S i = Some b ->
                 b.1.2 = a.1.2 + a.2 + sp) ->
  forall (d i : nat) a b,
    items !! i = Some a -> items !! (i + S d)%nat = Some b ->
    a.1.2 + a.2 <= b.1.2.
Proof.
  intros Hsp Hlen Hchain. induction d as [|d IH]; intros i a b Ha Hb.
  - replace (i + 1)%nat with (S i) in Hb by lia.
    rewrite (Hchain i a b Ha Hb). lia.
  - destruct (lookup_lt_is_Some_2 items (i + S d)) as [c Hc].
    { apply lookup_lt_Some in Hb. eapply Nat.lt_trans; [|exact Hb]. lia. }
    pose proof (IH i a c Ha Hc) as Hac.
    replace (i + S (S d))%nat with (S (i + S d)) in Hb by lia.
    rewrite (Hchain _ c b Hc Hb).
    rewrite Forall_forall in Hlen.
    pose proof (Hlen c (list_elem_of_lookup_2 _ _ _ Hc)). lia.
Qed.

Lemma spread_nonneg (m : nat) (r avg : Z) :
  0 <= avg -> Forall (fun v => 0 <= v) (Box.spread m r avg).
Proof.
  intros Havg. revert r. induction m as [|m IH]; intros r; simpl.
  - constructor.
  - constructor; [destruct (0 <? r); lia|apply IH].
Qed.

(** Lengths are not negative when minimum lengths and bonuses are not. *)
Lemma lengths_nonneg (o : Box.orientation) (items : list Box.position) :
  Forall (Box.keeps_minimum o) items ->
  forallb (Box.length_nonneg o) items.*1.*1 = true ->
  forallb Box.packing_sized items.*1.*1 = true ->
  Forall (fun v => 0 <= v) (Box.bonuses o items) ->
  Forall (fun item : Box.position => 0 <= item.2) items.
Proof.
  induction items as [|[[p pos] len] items IH]; intros Hk Hn Hs Hb.
  - constructor.
  - inversion Hk as [|? ? Hkp Hk']; subst. simpl in Hn, Hs.
    apply andb_true_iff in Hn as [Hnp Hn]. apply andb_true_iff in Hs as [Hsp Hs].
    destruct (packing_sized_calc_size o p Hsp) as (l & b & Hc).
    unfold Box.length_nonneg in Hnp. rewrite Hc in Hnp.
    apply Z.leb_le in Hnp.
    unfold Box.bonuses in Hb. cbn [omap list_omap] in Hb.
    unfold Box.bonus_of at 1 in Hb. rewrite Hc in Hb.
    unfold Box.keeps_minimum in Hkp. rewrite Hc in Hkp.
    destruct (packing_expand p).
    + inversion Hb as [|? ? Hb0 Hb']; subst.
      constructor; [simpl; lia|apply IH; assumption].
    + destruct (Hkp eq_refl) as [b' [= -> _]].
      constructor; [simpl; lia|apply IH; assumption].
Qed.

Lemma owed_average_nonneg (n extra : Z) :
  0 <= n -> 0 <= (Box.owed n (Box._extra_space_iter extra)).2.
Proof.
  intros Hn. unfold Box._extra_space_iter. simpl.
  destruct (Z.leb_spec extra 0); simpl; [lia|].
  destruct (Z.eq_dec n 0) as [->|Hne]; [rewrite Z.div_0_r; lia|].
  apply Z.div_pos; lia.
Qed.

(** X21: hit-testing finds the leading children.  In a box built by the
    pack methods whose spacing and whose leading children's minimum lengths
    are not negative, a point inside the span that the position generator
    gives a leading child resolves to that child, with the child's offset
    and extent along the axis and the full breadth across it; a point inside
    a leading whitespace resolves to nothing. *)
Theorem Box_find_child_at_leading_child (self : Box.t) (x y width height : Z)
    (i : nat) (p : packing) (child_pos child_length : Z) :
  Box.well_formed self = true ->
  0 <= Box.spacing self ->
  forallb (Box.length_nonneg (Box.kind self)) (Box.children self) = true ->
  let total_length := (Box._translate (Box.kind self) width height).1 in
  let total_breadth := (Box._translate (Box.kind self) width height).2 in
  let pos := (Box._translate (Box.kind self) x y).1 in
  (i < List.length (Box.children self))%nat ->
  Box.yielded (Box._position_children self total_length).1 !! i =
    Some (p, child_pos, child_length) ->
  child_pos <= pos < child_pos + child_length ->
  (Box._find_child_at self x y width height).1 =
    Ok match p with
       | Packing child _ =>
           Some (child,
                 (Box._translate (Box.kind self) child_pos 0).1,
                 (Box._translate (Box.kind self) child_pos 0).2,
                 (Box._translate (Box.kind self) child_length total_breadth).1,
                 (Box._translate (Box.kind self) child_length total_breadth).2)
       | WhitespacePacking _ _ => None
       end.
Proof.
  intros Hwf Hsp Hnonneg total_length total_breadth pos Hi Hitem Hin.
  subst total_length total_breadth pos. unfold Box._find_child_at.
  destruct (Box._translate (Box.kind self) width height) as [tl tb].
  cbn [fst snd] in *.
  destruct (position_children_well_formed self tl Hwf)
    as (w & h & front & back & it1 & it2 & Hg & Hpos & Hw1 & _ & Hi1 & Hi2
        & Hkeep & Hbonus).
  cbn zeta in Hpos, Hw1, Hbonus. rewrite Hpos in Hitem |- *.
  destruct (well_formed_get_size self Hwf)
    as (m & self' & Hg' & Hk & _ & _ & _ & _).
  rewrite Hg'. cbn [fst snd Box.yielded Box.ending] in *. rewrite Hk.
  destruct (Box._translate (Box.kind self) x y) as [pos offset].
  cbn [fst] in *.
  assert (Hlen : List.length front = List.length (Box.children self)).
  { rewrite <- Hi1, !length_fmap. reflexivity. }
  rewrite lookup_app_l in Hitem
    by (eapply Nat.lt_le_trans;
        [exact Hi | apply Nat.eq_le_incl; symmetry; exact Hlen]).
  (* the lengths of the leading items are not negative *)
  apply Forall_app in Hkeep as [Hkeep1 _].
  assert (Hcount : 0 <= Box.expand_count self).
  { apply andb_true_iff in Hwf as [Hc%bool_decide_eq_true _]. lia. }
  assert (Hbs : Forall (fun v => 0 <= v) (Box.bonuses (Box.kind self) front)).
  { pose proof (spread_nonneg (Z.to_nat (Box.expand_count self))
      (Box.owed (Box.expand_count self)
         (Box._extra_space_iter (tl - (Box._translate (Box.kind self) w h).1))).1
      _ (owed_average_nonneg (Box.expand_count self)
           (tl - (Box._translate (Box.kind self) w h).1) Hcount)) as Hall.
    rewrite <- Hbonus, bonuses_app in Hall.
    apply Forall_app in Hall as [Hall _]. exact Hall. }
  assert (Hsized : forallb Box.packing_sized front.*1.*1 = true).
  { rewrite Hi1. apply andb_true_iff in Hwf as [_ Hs].
    rewrite forallb_app in Hs. apply andb_true_iff in Hs as [Hs _]. exact Hs. }
  assert (Hlens : Forall (fun item : Box.position => 0 <= item.2) front).
  { apply (lengths_nonneg (Box.kind self)); try assumption.
    rewrite Hi1. exact Hnonneg. }
  destruct (position_leading_chain _ _ _ _ _ _ _ _ Hw1) as [_ Hchain].
  (* the items before the one hit end at or before its start *)
  rewrite <- (take_drop_middle front i _ Hitem), <- app_assoc. cbn [app].
  apply find_child_loop_at; [|exact Hin].
  apply Forall_forall. intros a Ha.
  apply list_elem_of_lookup in Ha as [j Hj].
  pose proof (lookup_lt_Some _ _ _ Hj) as Hjlt. rewrite length_take in Hjlt.
  assert (Hji : (j < i)%nat).
  { eapply Nat.lt_le_trans; [exact Hjlt|apply Nat.le_min_l]. }
  rewrite lookup_take_lt in Hj by exact Hji.
  assert (Hend : a.1.2 + a.2 <= child_pos).
  { replace i with (j + S (i - j - 1))%nat in Hitem by lia.
    apply (chain_ends_before (Box.spacing self) front Hsp Hlens Hchain
             (i - j - 1) j a (p, child_pos, child_length) Hj Hitem). }
  rewrite Forall_forall in Hlens.
  pose proof (Hlens a (list_elem_of_lookup_2 _ _ _ Hj)). lia.
Qed.

Lemma Box_find_child_at_leading_child_witness :
  let b := Scenario.box_with_hotspot in
  Box.yielded (Box._position_children b 30).1 !! 1%nat =
    Some (Packing (Hotspot.as_obj "right" (leaf 20 10)) false, 10, 20) /\
  (Box._find_child_at b 12 3 30 10).1 =
    Ok (Some (Hotspot.as_obj "right" (leaf 20 10), 10, 0, 20, 10)).
Proof.
  intros b. split; [reflexivity|].
  apply (Box_find_child_at_leading_child b 12 3 30 10 1
           (Packing (Hotspot.as_obj "right" (leaf 20 10)) false) 10 20);
    first [reflexivity | simpl; lia].
Defined.

(** ** Building a table *)

Lemma list_index_in_range (len : nat) (i : Z) (n : nat) :
  Table.list_index len i = Ok n ->
  (n < len)%nat /\
  (Z.of_nat n = i \/ Z.of_nat n = Z.of_nat len + i).
Proof.
  unfold Table.list_index.
  destruct (Z.leb_spec 0 i), (Z.ltb_spec i (Z.of_nat len)); simpl;
    try (intros [= <-]; lia);
    destruct (Z.leb_spec (- Z.of_nat len) i), (Z.ltb_spec i 0); simpl;
    try discriminate; intros [= <-]; lia.
Qed.

(** X22: [Table] refuses, with [AssertionError], a row or column count
    that is not positive, and otherwise makes a grid of exactly that many
    rows and columns in which every cell is empty. *)
Theorem Table_init_shape (row_length col_length row_spacing col_spacing : Z) :
  match Table.__init__ row_length col_length row_spacing col_spacing with
  | Ok t =>
      0 < row_length /\ 0 < col_length /\
      Table.has_shape t (Z.to_nat row_length) (Z.to_nat col_length) /\
      (forall r c, Table.cell t r c = None) /\
      _size t = None
  | Raise e => e = AssertionError /\ (row_length <= 0 \/ col_length <= 0)
  end.
Proof.
  unfold Table.__init__.
  destruct (Z.ltb_spec 0 (Z.min row_length col_length)); simpl.
  - split; [lia|]. split; [lia|]. split; [|split; [|reflexivity]].
    + unfold Table.has_shape, Table._generate_table_multiarray. simpl.
      split; [apply length_replicate|].
      apply Forall_replicate, length_replicate.
    + intros r c. unfold Table.cell, Table._generate_table_multiarray. simpl.
      destruct (replicate (Z.to_nat row_length)
                  (replicate (Z.to_nat col_length) None) !! r) as [row|] eqn:Hr;
        [|reflexivity].
      apply lookup_replicate in Hr as [-> _]. simpl.
      destruct (replicate (Z.to_nat col_length) (@None packing) !! c)
        as [v|] eqn:Hc; [|reflexivity].
      apply lookup_replicate in Hc as [-> _]. reflexivity.
  - split; [reflexivity|lia].
Qed.

(** X23: [Table.pack] with a row and a column inside the grid, counted
    from the start or, when negative, from the end, puts the child in that
    one cell, leaves every other cell and the shape of the grid as they
    were; with a row or a column outside it raises [IndexError] and nothing
    else. *)
Theorem Table_pack_sets_one_cell (t : Table.t) (child : obj) (row column : Z)
    (expand : bool) (rows cols : nat) :
  Table.has_shape t rows cols ->
  match Table.pack t child row column expand with
  | Ok t' =>
      exists r c : nat,
        Table.list_index rows row = Ok r /\
        Table.list_index cols column = Ok c /\
        Table.has_shape t' rows cols /\
        Table.cell t' r c = Some (Packing child expand) /\
        forall r' c', (r', c') <> (r, c) ->
          Table.cell t' r' c' = Table.cell t r' c'
  | Raise e =>
      e = IndexError /\
      (Table.list_index rows row = Raise IndexError \/
       Table.list_index cols column = Raise IndexError)
  end.
Proof.
  intros [Hrows Hcols]. unfold Table.pack. rewrite Hrows.
  destruct (Table.list_index rows row) as [r|e] eqn:Hr; simpl;
    [|rewrite (list_index_raises _ _ _ Hr); split; [reflexivity|left; reflexivity]].
  destruct (list_index_in_range _ _ _ Hr) as [Hrlt _].
  destruct (lookup_lt_is_Some_2 (Table.table_multiarray t) r) as [cells Hcells];
    [rewrite Hrows; exact Hrlt|].
  rewrite Hcells. simpl.
  assert (Hlen : List.length cells = cols).
  { rewrite Forall_forall in Hcols. apply Hcols.
    apply (list_elem_of_lookup_2 _ r), Hcells. }
  rewrite Hlen.
  destruct (Table.list_index cols column) as [c|e] eqn:Hc; simpl;
    [|rewrite (list_index_raises _ _ _ Hc); split; [reflexivity|right; reflexivity]].
  destruct (list_index_in_range _ _ _ Hc) as [Hclt _].
  exists r, c. split; [reflexivity|]. split; [reflexivity|].
  split; [|split].
  - unfold Table.has_shape. simpl. split; [rewrite length_insert; exact Hrows|].
    apply Forall_insert; [exact Hcols|]. rewrite length_insert. exact Hlen.
  - unfold Table.cell. simpl.
    rewrite list_lookup_insert_eq by (rewrite Hrows; exact Hrlt). simpl.
    rewrite list_lookup_insert_eq by (rewrite Hlen; exact Hclt). reflexivity.
  - intros r' c' Hne. unfold Table.cell. simpl.
    destruct (decide (r' = r)) as [->|Hr'].
    + rewrite list_lookup_insert_eq by (rewrite Hrows; exact Hrlt).
      rewrite Hcells. simpl.
      rewrite list_lookup_insert_ne by congruence. reflexivity.
    + rewrite list_lookup_insert_ne by congruence. reflexivity.
Qed.

Lemma Table_pack_sets_one_cell_witness :
  exists t t',
    Table.__init__ 2 3 0 0 = Ok t /\
    Table.has_shape t 2 3 /\
    Table.pack t (leaf 10 10) (-1) 1 false = Ok t' /\
    Table.cell t' 1 1 = Some (Packing (leaf 10 10) false).
Proof.
  eexists _, _. split; [reflexivity|].
  assert (Hshape : Table.has_shape
            {| Table.row_length := 2; Table.col_length := 3;
               Table.row_spacing := 0; Table.col_spacing := 0;
               Table.table_multiarray :=
                 Table._generate_table_multiarray 2 3;
               Table.size_memo := None |} 2 3).
  { split; [reflexivity|]. repeat constructor. }
  split; [exact Hshape|].
  pose proof (Table_pack_sets_one_cell _ (leaf 10 10) (-1) 1 false 2 3 Hshape)
    as Hpack.
  split; [reflexivity|].
  destruct Hpack as (r & c & [= <-] & [= <-] & _ & Hcell & _). exact Hcell.
Defined.

(** ** Hit-testing and sizing the cells of a table *)

Lemma find_child_in_row_sound (x y : Z) (col_sizes : gmap nat Z)
    (col_spacing row_distance : Z) (row : list (option packing)) :
  forall (col_count : nat) (col_distance : Z) (child : obj) (cx cy cw ch : Z),
    Table.find_child_in_row x y col_sizes col_spacing row_distance col_count
      col_distance row = Ok (Some (child, cx, cy, cw, ch)) ->
    cx <= x < cx + cw /\ cy <= y < cy + ch /\ cy = row_distance /\
    obj_get_size child = Some (cw, ch) /\ obj_truth child = true /\
    exists expand, Some (Packing child expand) ∈ row.
Proof.
  induction row as [|cell row IH]; intros cc cd child cx cy cw ch;
    cbn [Table.find_child_in_row].
  - discriminate.
  - destruct cell as [[c e|size e]|]; [| discriminate | discriminate].
    unfold packing_calc_size, call_get_size, Table._translate, Table.packing_child.
    destruct (obj_get_size c) as [[w h]|] eqn:Hsize;
      cbn [mbind result_bind mret result_ret]; [|discriminate].
    destruct (obj_truth c && _) eqn:Hcond.
    + intros [= <- <- <- <- <-].
      apply andb_true_iff in Hcond as [Htruth Hcond].
      apply andb_true_iff in Hcond as [Hx Hy].
      apply andb_true_iff in Hx as [Hx1%Z.leb_le Hx2%Z.ltb_lt].
      apply andb_true_iff in Hy as [Hy1%Z.leb_le Hy2%Z.ltb_lt].
      split; [lia|]. split; [lia|]. split; [reflexivity|].
      split; [exact Hsize|]. split; [exact Htruth|]. exists e. left.
    + destruct (Table.getitem col_sizes cc) as [cs|err];
        cbn [mbind result_bind]; [|discriminate].
      intros Hrest.
      destruct (IH _ _ _ _ _ _ _ Hrest) as (Hx & Hy & Hd & Hs & Ht & e' & Hin).
      split; [exact Hx|]. split; [exact Hy|]. split; [exact Hd|].
      split; [exact Hs|]. split; [exact Ht|]. exists e'. right. exact Hin.
Qed.

Lemma find_child_in_rows_sound (x y : Z) (col_sizes row_sizes : gmap nat Z)
    (col_spacing row_spacing : Z) (rows : list (list (option packing))) :
  forall (row_count : nat) (row_distance : Z) (child : obj) (cx cy cw ch : Z),
    Table.find_child_in_rows x y col_sizes row_sizes col_spacing row_spacing
      row_count row_distance rows = Ok (Some (child, cx, cy, cw, ch)) ->
    cx <= x < cx + cw /\ cy <= y < cy + ch /\
    obj_get_size child = Some (cw, ch) /\ obj_truth child = true /\
    exists expand row, row ∈ rows /\ Some (Packing child expand) ∈ row.
Proof.
  induction rows as [|row rows IH]; intros rc rd child cx cy cw ch; simpl.
  - discriminate.
  - destruct (Table.find_child_in_row x y col_sizes col_spacing rd 0 0 row)
      as [[hit|]|err] eqn:Hrow; simpl; [| |discriminate].
    + intros [= ->].
      destruct (find_child_in_row_sound _ _ _ _ _ _ _ _ _ _ _ _ _ Hrow)
        as (Hx & Hy & _ & Hs & Ht & e & Hin).
      split; [exact Hx|]. split; [exact Hy|]. split; [exact Hs|].
      split; [exact Ht|]. exists e, row. split; [left|exact Hin].
    + destruct (Table.getitem row_sizes rc) as [rs|err]; simpl; [|discriminate].
      intros Hrest.
      destruct (IH _ _ _ _ _ _ _ Hrest)
        as (Hx & Hy & Hs & Ht & e & row' & Hin & Hc).
      split; [exact Hx|]. split; [exact Hy|]. split; [exact Hs|].
      split; [exact Ht|]. exists e, row'. split; [right; exact Hin|exact Hc].
Qed.

(** X24: whatever [Table._find_child_at] reports is right: the child sits
    in a cell of the grid, the rect reported holds the query point, and
    its size is the child's own size, not that of its row and column. *)
Theorem Table_find_child_at_sound (t : Table.t) (x y width height : Z)
    (child : obj) (cx cy cw ch : Z) :
  Table._find_child_at t x y width height = Ok (Some (child, cx, cy, cw, ch)) ->
  cx <= x < cx + cw /\ cy <= y < cy + ch /\
  obj_get_size child = Some (cw, ch) /\
  exists expand row,
    row ∈ Table.table_multiarray t /\ Some (Packing child expand) ∈ row.
Proof.
  unfold Table._find_child_at.
  destruct (Table._get_grid_sizes t) as [[cs rs]|e]; simpl; [|discriminate].
  intros Hhit.
  destruct (find_child_in_rows_sound _ _ _ _ _ _ _ _ _ _ _ _ _ _ Hhit)
    as (Hx & Hy & Hs & _ & Hcell).
  split; [exact Hx|]. split; [exact Hy|]. split; [exact Hs|exact Hcell].
Qed.

Lemma Table_find_child_at_sound_witness :
  let t :=
    {| Table.row_length := 1; Table.col_length := 2;
       Table.row_spacing := 0; Table.col_spacing := 3;
       Table.table_multiarray :=
         [[Some (Packing (leaf 10 10) false); Some (Packing (leaf 20 5) false)]];
       Table.size_memo := None |} in
  Table._find_child_at t 15 2 100 100 = Ok (Some (leaf 20 5, 13, 0, 20, 5)) /\
  13 <= 15 < 13 + 20.
Proof.
  intros t. split; [reflexivity|].
  apply (Table_find_child_at_sound t 15 2 100 100 (leaf 20 5) 13 0 20 5).
  reflexivity.
Defined.

Lemma grows_refl (d : gmap nat Z) : Table.grows d d.
Proof. intros k v Hk. exists v. split; [exact Hk|lia]. Qed.

Lemma grows_trans (d1 d2 d3 : gmap nat Z) :
  Table.grows d1 d2 -> Table.grows d2 d3 -> Table.grows d1 d3.
Proof.
  intros H12 H23 k v Hk. destruct (H12 k v Hk) as (v2 & Hk2 & Hle).
  destruct (H23 k v2 Hk2) as (v3 & Hk3 & Hle'). exists v3. split; [exact Hk3|lia].
Qed.

Lemma setdefault_spec (k : nat) (d : gmap nat Z) :
  Table.grows d (Table.setdefault k d) /\
  is_Some (Table.setdefault k d !! k) /\
  (Table.nonneg d -> Table.nonneg (Table.setdefault k d)).
Proof.
  unfold Table.setdefault. destruct (d !! k) as [v|] eqn:Hk.
  - split; [apply grows_refl|]. split; [rewrite Hk; eauto|auto].
  - split; [|split].
    + intros k' v' Hk'. exists v'. split; [|lia].
      rewrite lookup_insert_ne; [exact Hk'|congruence].
    + rewrite lookup_insert_eq. eauto.
    + intros Hn k' v'. destruct (decide (k = k')) as [->|Hne].
      * rewrite lookup_insert_eq. intros [= <-]. lia.
      * rewrite lookup_insert_ne by exact Hne. apply Hn.
Qed.

(** [if v > d[k]: d[k] = v] *)
Lemma raise_to_spec (k : nat) (d : gmap nat Z) (old v : Z) :
  d !! k = Some old ->
  let d' := if old <? v then <[k := v]> d else d in
  Table.grows d d' /\
  (exists v', d' !! k = Some v' /\ v <= v') /\
  (Table.nonneg d -> Table.nonneg d').
Proof.
  intros Hk. cbn zeta. destruct (Z.ltb_spec old v).
  - split; [|split].
    + intros k' v' Hk'. destruct (decide (k = k')) as [->|Hne].
      * rewrite lookup_insert_eq. exists v. split; [reflexivity|].
        rewrite Hk in Hk'. injection Hk' as <-. lia.
      * rewrite lookup_insert_ne by exact Hne. exists v'. split; [exact Hk'|lia].
    + exists v. rewrite lookup_insert_eq. split; [reflexivity|lia].
    + intros Hn k' v'. destruct (decide (k = k')) as [->|Hne].
      * rewrite lookup_insert_eq. intros [= <-]. pose proof (Hn _ _ Hk). lia.
      * rewrite lookup_insert_ne by exact Hne. apply Hn.
  - split; [apply grows_refl|]. split; [exists old; split; [exact Hk|lia]|auto].
Qed.

Lemma grid_sizes_row_spec (row_count : nat) (row : list (option packing)) :
  forall (col_count : nat) (col_sizes row_sizes : gmap nat Z),
    is_Some (row_sizes !! row_count) ->
    Table.nonneg col_sizes -> Table.nonneg row_sizes ->
    match Table.grid_sizes_row row_count col_count row col_sizes row_sizes with
    | Ok (cs', rs') =>
        Table.grows col_sizes cs' /\ Table.grows row_sizes rs' /\
        Table.nonneg cs' /\ Table.nonneg rs' /\
        (forall j, (j < List.length row)%nat ->
                   is_Some (cs' !! (col_count + j)%nat)) /\
        (forall j p w h,
           row !! j = Some (Some p) ->
           packing_calc_size Table._translate p = Ok (w, h) ->
           exists cw rh,
             cs' !! (col_count + j)%nat = Some cw /\ w <= cw /\
             rs' !! row_count = Some rh /\ h <= rh)
    | Raise e =>
        e = AttributeError /\
        exists p, Some p ∈ row /\
                  packing_calc_size Table._translate p = Raise AttributeError
    end.
Proof.
  induction row as [|cell row IH]; intros cc cs rs Hrow Hncs Hnrs;
    cbn [Table.grid_sizes_row].
  - split; [apply grows_refl|]. split; [apply grows_refl|].
    split; [exact Hncs|]. split; [exact Hnrs|].
    split; [intros j Hj; simpl in Hj; lia|intros j p w h Hj; discriminate].
  - destruct (setdefault_spec cc cs) as (Hg0 & Hkey0 & Hn0).
    set (cs0 := Table.setdefault cc cs) in *.
    assert (Hcalc_err : forall p e,
              packing_calc_size Table._translate p = Raise e ->
              e = AttributeError).
    { intros [c ?|? ?] e; simpl; [|discriminate].
      unfold call_get_size. destruct (obj_get_size c) as [[? ?]|]; simpl;
        [discriminate|intros [= <-]; reflexivity]. }
    destruct cell as [p|].
    + destruct (packing_calc_size Table._translate p) as [[x y]|e] eqn:Hcalc;
        cbn [mbind result_bind].
      2:{ pose proof (Hcalc_err p e Hcalc) as ->. split; [reflexivity|].
          exists p. split; [left|exact Hcalc]. }
      destruct Hrow as [rv Hrv]. unfold Table.getitem. rewrite Hrv.
      cbn [mbind result_bind].
      destruct (raise_to_spec row_count rs rv y Hrv) as (Hg1 & (rv' & Hrv' & Hy) & Hn1).
      set (rs1 := if rv <? y then <[row_count := y]> rs else rs) in *.
      destruct Hkey0 as [cv Hcv]. rewrite Hcv.
      cbn [mbind result_bind].
      destruct (raise_to_spec cc cs0 cv x Hcv) as (Hg2 & (cv' & Hcv' & Hx) & Hn2).
      set (cs1 := if cv <? x then <[cc := x]> cs0 else cs0) in *.
      specialize (IH (S cc) cs1 rs1 (ex_intro _ rv' Hrv')
                     (Hn2 (Hn0 Hncs)) (Hn1 Hnrs)).
      destruct (Table.grid_sizes_row row_count (S cc) row cs1 rs1)
        as [[cs' rs']|e].
      * destruct IH as (Hgc & Hgr & Hnc & Hnr & Hkeys & Hfit).
        split; [exact (grows_trans _ _ _ Hg0 (grows_trans _ _ _ Hg2 Hgc))|].
        split; [exact (grows_trans _ _ _ Hg1 Hgr)|].
        split; [exact Hnc|]. split; [exact Hnr|]. split.
        -- intros [|j] Hj.
           ++ rewrite Nat.add_0_r. destruct (Hgc _ _ Hcv') as (v & Hv & _). eauto.
           ++ replace (cc + S j)%nat with (S cc + j)%nat by lia.
              apply Hkeys. simpl in Hj. lia.
        -- intros [|j] q w h Hj Hq.
           ++ injection Hj as ->. rewrite Hcalc in Hq. injection Hq as <- <-.
              destruct (Hgc _ _ Hcv') as (cw & Hcw & Hle).
              destruct (Hgr _ _ Hrv') as (rh & Hrh & Hle').
              exists cw, rh. rewrite Nat.add_0_r.
              split; [exact Hcw|]. split; [lia|]. split; [exact Hrh|lia].
           ++ replace (cc + S j)%nat with (S cc + j)%nat by lia.
              apply (Hfit j q w h Hj Hq).
      * destruct IH as (-> & q & Hin & Hq). split; [reflexivity|].
        exists q. split; [right; exact Hin|exact Hq].
    + specialize (IH (S cc) cs0 rs Hrow (Hn0 Hncs) Hnrs).
      destruct (Table.grid_sizes_row row_count (S cc) row cs0 rs)
        as [[cs' rs']|e].
      * destruct IH as (Hgc & Hgr & Hnc & Hnr & Hkeys & Hfit).
        split; [exact (grows_trans _ _ _ Hg0 Hgc)|].
        split; [exact Hgr|]. split; [exact Hnc|]. split; [exact Hnr|]. split.
        -- intros [|j] Hj.
           ++ rewrite Nat.add_0_r. destruct Hkey0 as [cv Hcv].
              destruct (Hgc _ _ Hcv) as (v & Hv & _). eauto.
           ++ replace (cc + S j)%nat with (S cc + j)%nat by lia.
              apply Hkeys. simpl in Hj. lia.
        -- intros [|j] q w h Hj Hq; [discriminate|].
           replace (cc + S j)%nat with (S cc + j)%nat by lia.
           apply (Hfit j q w h Hj Hq).
      * destruct IH as (-> & q & Hin & Hq). split; [reflexivity|].
        exists q. split; [right; exact Hin|exact Hq].
Qed.

Lemma grid_sizes_rows_spec (rows : list (list (option packing))) :
  forall (row_count : nat) (col_sizes row_sizes : gmap nat Z),
    Table.nonneg col_sizes -> Table.nonneg row_sizes ->
    match Table.grid_sizes_rows row_count rows col_sizes row_sizes with
    | Ok (cs', rs') =>
        Table.grows col_sizes cs' /\ Table.grows row_sizes rs' /\
        Table.nonneg cs' /\ Table.nonneg rs' /\
        (forall i row,
           rows !! i = Some row ->
           is_Some (rs' !! (row_count + i)%nat) /\
           forall j, (j < List.length row)%nat -> is_Some (cs' !! j)) /\
        (forall i row j p w h,
           rows !! i = Some row ->
           row !! j = Some (Some p) ->
           packing_calc_size Table._translate p = Ok (w, h) ->
           exists cw rh,
             cs' !! j = Some cw /\ w <= cw /\
             rs' !! (row_count + i)%nat = Some rh /\ h <= rh)
    | Raise e =>
        e = AttributeError /\
        exists row p, row ∈ rows /\ Some p ∈ row /\
          packing_calc_size Table._translate p = Raise AttributeError
    end.
Proof.
  induction rows as [|row rows IH]; intros rc cs rs Hncs Hnrs;
    cbn [Table.grid_sizes_rows].
  - split; [apply grows_refl|]. split; [apply grows_refl|].
    split; [exact Hncs|]. split; [exact Hnrs|].
    split; intros; discriminate.
  - destruct (setdefault_spec rc rs) as (Hg0 & Hkey0 & Hn0).
    set (rs0 := Table.setdefault rc rs) in *.
    pose proof (grid_sizes_row_spec rc row 0 cs rs0 Hkey0 Hncs (Hn0 Hnrs))
      as Hrow.
    destruct (Table.grid_sizes_row rc 0 row cs rs0) as [[cs1 rs1]|e];
      cbn [mbind result_bind].
    2:{ destruct Hrow as (-> & p & Hin & Hp). split; [reflexivity|].
        exists row, p. split; [left|]. split; [exact Hin|exact Hp]. }
    destruct Hrow as (Hgc1 & Hgr1 & Hnc1 & Hnr1 & Hkeys1 & Hfit1).
    specialize (IH (S rc) cs1 rs1 Hnc1 Hnr1).
    destruct (Table.grid_sizes_rows (S rc) rows cs1 rs1) as [[cs' rs']|e].
    + destruct IH as (Hgc & Hgr & Hnc & Hnr & Hkeys & Hfit).
      split; [exact (grows_trans _ _ _ Hgc1 Hgc)|].
      split; [exact (grows_trans _ _ _ Hg0 (grows_trans _ _ _ Hgr1 Hgr))|].
      split; [exact Hnc|]. split; [exact Hnr|]. split.
      * intros [|i] r Hi; simpl in Hi.
        -- injection Hi as <-. rewrite Nat.add_0_r. split.
           ++ destruct Hkey0 as [v Hv].
              destruct (Hgr1 _ _ Hv) as (v1 & Hv1 & _).
              destruct (Hgr _ _ Hv1) as (v2 & Hv2 & _). eauto.
           ++ intros j Hj. destruct (Hkeys1 j Hj) as [v Hv]. simpl in Hv.
              destruct (Hgc _ _ Hv) as (v' & Hv' & _). eauto.
        -- replace (rc + S i)%nat with (S rc + i)%nat by lia.
           apply (Hkeys i r Hi).
      * intros [|i] r j p w h Hi Hj Hp; simpl in Hi.
        -- injection Hi as <-. rewrite Nat.add_0_r.
           destruct (Hfit1 j p w h Hj Hp) as (cw & rh & Hcw & Hw & Hrh & Hh).
           simpl in Hcw.
           destruct (Hgc _ _ Hcw) as (cw' & Hcw' & Hle).
           destruct (Hgr _ _ Hrh) as (rh' & Hrh' & Hle').
           exists cw', rh'. split; [exact Hcw'|]. split; [lia|].
           split; [exact Hrh'|lia].
        -- replace (rc + S i)%nat with (S rc + i)%nat by lia.
           apply (Hfit i r j p w h Hi Hj Hp).
    + destruct IH as (-> & r & p & Hin & Hp & Hcalc). split; [reflexivity|].
      exists r, p. split; [right; exact Hin|]. split; [exact Hp|exact Hcalc].
Qed.

Lemma nonneg_empty : Table.nonneg ∅.
Proof. intros k v Hk. rewrite lookup_empty in Hk. discriminate. Qed.

(** X25: the column widths and row heights that [_get_grid_sizes]
    computes leave room for every cell: the width of a column is at least
    the width of each child packed in it, the height of a row at least the
    height of each child packed in it, and neither is negative.  The only
    error is the [AttributeError] of a child without [get_size]; in
    particular no key is ever missing from the two dicts. *)
Theorem Table_grid_sizes_fit_cells (t : Table.t) :
  match Table._get_grid_sizes t with
  | Ok (col_sizes, row_sizes) =>
      Table.nonneg col_sizes /\ Table.nonneg row_sizes /\
      forall r c p w h,
        Table.cell t r c = Some p ->
        packing_calc_size Table._translate p = Ok (w, h) ->
        exists cw rh,
          col_sizes !! c = Some cw /\ row_sizes !! r = Some rh /\
          w <= cw /\ h <= rh
  | Raise e =>
      e = AttributeError /\
      exists row p, row ∈ Table.table_multiarray t /\ Some p ∈ row /\
        packing_calc_size Table._translate p = Raise AttributeError
  end.
Proof.
  unfold Table._get_grid_sizes.
  pose proof (grid_sizes_rows_spec (Table.table_multiarray t) 0 ∅ ∅
                nonneg_empty nonneg_empty) as Hspec.
  destruct (Table.grid_sizes_rows 0 (Table.table_multiarray t) ∅ ∅)
    as [[cs rs]|e]; [|exact Hspec].
  destruct Hspec as (_ & _ & Hnc & Hnr & _ & Hfit).
  split; [exact Hnc|]. split; [exact Hnr|].
  intros r c p w h Hcell Hp. unfold Table.cell in Hcell.
  destruct (Table.table_multiarray t !! r) as [row|] eqn:Hr; [|discriminate].
  simpl in Hcell.
  destruct (row !! c) as [[q|]|] eqn:Hc; simpl in Hcell; try discriminate.
  injection Hcell as ->.
  destruct (Hfit r row c p w h Hr Hc Hp) as (cw & rh & Hcw & Hw & Hrh & Hh).
  exists cw, rh. split; [exact Hcw|]. split; [exact Hrh|]. split; assumption.
Qed.

(** ** Drawing a table *)

Lemma drawable_cell_calc_size (p : packing) :
  Table.drawable_cell (Some p) = true ->
  exists child expand w h,
    p = Packing child expand /\ obj_has_draw child = true /\
    obj_get_size child = Some (w, h) /\
    packing_calc_size Table._translate p = Ok (w, h).
Proof.
  destruct p as [c e|? ?]; simpl; [|discriminate].
  unfold Box.can_be_drawn. intros [Hd Hs%bool_decide_eq_true]%andb_true_iff.
  destruct Hs as [[w h] Hs]. exists c, e, w, h.
  unfold call_get_size. rewrite Hs. repeat split; assumption.
Qed.

Lemma layout_row_spec (x y : Z) (col_sizes : gmap nat Z)
    (col_spacing row_distance : Z) (row : list (option packing)) :
  forall (col_count : nat) (col_distance : Z),
    (forall j, (j < List.length row)%nat ->
               is_Some (col_sizes !! (col_count + j)%nat)) ->
    forallb Table.drawable_cell row = true ->
    exists calls,
      Table.layout_row x y col_sizes col_spacing row_distance col_count
        col_distance row = (calls, None) /\
      List.length calls =
        List.length (List.filter
          (fun c : option packing => bool_decide (is_Some c)) row) /\
      forall child expand,
        Some (Packing child expand) ∈ row ->
        exists cx cw ch,
          (child, cx, y + row_distance, cw, ch) ∈ calls /\
          obj_get_size child = Some (cw, ch).
Proof.
  induction row as [|cell row IH]; intros cc cd Hkeys Hdraw.
  - exists []. split; [reflexivity|]. split; [reflexivity|].
    intros child e Hin. inversion Hin.
  - simpl in Hdraw. apply andb_true_iff in Hdraw as [Hcell Hdraw].
    destruct (Hkeys O ltac:(simpl; lia)) as [cs Hcs].
    rewrite Nat.add_0_r in Hcs.
    destruct (IH (S cc) (cd + (cs + col_spacing))) as (later & Hrest & Hlen & Hall).
    { intros j Hj. replace (S cc + j)%nat with (cc + S j)%nat by lia.
      apply Hkeys. simpl. lia. }
    { exact Hdraw. }
    cbn [Table.layout_row]. unfold Table.getitem. rewrite Hcs.
    destruct cell as [p|].
    + destruct (drawable_cell_calc_size p Hcell)
        as (c & e & w & h & -> & Hd & Hs & Hcalc).
      rewrite Hcalc. cbn [mbind result_bind Table.packing_child].
      unfold call_draw. rewrite Hd, Hrest.
      eexists. split; [reflexivity|]. split.
      * simpl. f_equal. exact Hlen.
      * intros child expand [Heq|Hin]%elem_of_cons.
        -- injection Heq as <- <-. exists (x + cd), w, h.
           split; [left|exact Hs].
        -- destruct (Hall child expand Hin) as (cx & cw & ch & Hc & Hsz).
           exists cx, cw, ch. split; [right; exact Hc|exact Hsz].
    + rewrite Hrest. eexists. split; [reflexivity|]. split.
      * simpl. exact Hlen.
      * intros child expand [Heq|Hin]%elem_of_cons; [discriminate|].
        apply (Hall child expand Hin).
Qed.

Lemma layout_rows_spec (x y : Z) (col_sizes row_sizes : gmap nat Z)
    (col_spacing row_spacing : Z) (rows : list (list (option packing))) :
  forall (row_count : nat) (row_distance : Z),
    (forall i row, rows !! i = Some row ->
       is_Some (row_sizes !! (row_count + i)%nat) /\
       forall j, (j < List.length row)%nat -> is_Some (col_sizes !! j)) ->
    forallb (forallb Table.drawable_cell) rows = true ->
    exists calls,
      Table.layout_rows x y col_sizes row_sizes col_spacing row_spacing
        row_count row_distance rows = (calls, None) /\
      List.length calls =
        List.length (List.filter
          (fun c : option packing => bool_decide (is_Some c)) (concat rows)) /\
      forall row child expand,
        row ∈ rows -> Some (Packing child expand) ∈ row ->
        exists cx cy cw ch,
          (child, cx, cy, cw, ch) ∈ calls /\
          obj_get_size child = Some (cw, ch).
Proof.
  induction rows as [|row rows IH]; intros rc rd Hkeys Hdraw.
  - exists []. split; [reflexivity|]. split; [reflexivity|].
    intros row child e Hin. inversion Hin.
  - simpl in Hdraw. apply andb_true_iff in Hdraw as [Hrow Hdraw].
    destruct (Hkeys O row eq_refl) as [[rs Hrs] Hcols].
    rewrite Nat.add_0_r in Hrs.
    destruct (layout_row_spec x y col_sizes col_spacing rd row 0 0)
      as (calls & Hcalls & Hlen & Hall); [exact Hcols|exact Hrow|].
    destruct (IH (S rc) (rd + (rs + row_spacing))) as (later & Hrest & Hlen' & Hall').
    { intros i r Hi. replace (S rc + i)%nat with (rc + S i)%nat by lia.
      apply (Hkeys (S i) r Hi). }
    { exact Hdraw. }
    cbn [Table.layout_rows]. rewrite Hcalls. unfold Table.getitem.
    rewrite Hrs, Hrest. eexists. split; [reflexivity|]. split.
    + cbn [concat]. rewrite List.filter_app, !List.length_app, Hlen, Hlen'.
      reflexivity.
    + intros r child expand [->|Hin]%elem_of_cons Hcell.
      * destruct (Hall child expand Hcell) as (cx & cw & ch & Hc & Hs).
        exists cx, (y + rd), cw, ch. split; [|exact Hs].
        apply elem_of_app. left. exact Hc.
      * destruct (Hall' r child expand Hin Hcell) as (cx & cy & cw & ch & Hc & Hs).
        exists cx, cy, cw, ch. split; [|exact Hs].
        apply elem_of_app. right. exact Hc.
Qed.

(** X26: [Table._layout] steps over empty cells.  On a table whose
    populated cells hold children that have [draw] and [get_size], whatever
    cells are empty, it raises nothing and makes exactly one [draw] call for
    each populated cell, each at the child's own size. *)
Theorem Table_layout_steps_over_empty_cells (t : Table.t)
    (x y width height : Z) :
  forallb (forallb Table.drawable_cell) (Table.table_multiarray t) = true ->
  exists calls,
    Table._layout t x y width height = (calls, None) /\
    List.length calls = Table.populated t /\
    forall row child expand,
      row ∈ Table.table_multiarray t ->
      Some (Packing child expand) ∈ row ->
      exists cx cy cw ch,
        (child, cx, cy, cw, ch) ∈ calls /\ obj_get_size child = Some (cw, ch).
Proof.
  intros Hdraw. unfold Table._layout, Table._get_grid_sizes, Table.populated.
  pose proof (grid_sizes_rows_spec (Table.table_multiarray t) 0 ∅ ∅
                nonneg_empty nonneg_empty) as Hspec.
  destruct (Table.grid_sizes_rows 0 (Table.table_multiarray t) ∅ ∅)
    as [[cs rs]|e].
  - destruct Hspec as (_ & _ & _ & _ & Hkeys & _).
    apply layout_rows_spec; [exact Hkeys|exact Hdraw].
  - exfalso. destruct Hspec as (_ & row & p & Hrow & Hp & Hcalc).
    rewrite forallb_forall in Hdraw.
    pose proof (Hdraw row (proj1 (list_elem_of_In _ _) Hrow)) as Hcells.
    rewrite forallb_forall in Hcells.
    pose proof (Hcells (Some p) (proj1 (list_elem_of_In _ _) Hp)) as Hcell.
    destruct (drawable_cell_calc_size p Hcell) as (? & ? & ? & ? & _ & _ & _ & Hok).
    rewrite Hok in Hcalc. discriminate.
Qed.

(** The table of [Scenario.sparse_table], on which hit-testing raises. *)
Lemma Table_layout_steps_over_empty_cells_witness :
  exists t calls,
    Scenario.sparse_table = Ok t /\
    Table._layout t 0 0 10 10 = (calls, None) /\
    List.length calls = 1%nat.
Proof.
  eexists. 
  destruct (Table_layout_steps_over_empty_cells
              {| Table.row_length := 1; Table.col_length := 2;
                 Table.row_spacing := 0; Table.col_spacing := 0;
                 Table.table_multiarray :=
                   [[None; Some (Packing (leaf 10 10) false)]];
                 Table.size_memo := None |} 0 0 10 10 eq_refl)
    as (calls & Hlayout & Hlen & _).
  exists calls. split; [reflexivity|]. split; [exact Hlayout|exact Hlen].
Defined.
